(** * links-page: the in-app browser redirect worker (src/worker.js)

    A shallow embedding of the Cloudflare Worker that detects in-app
    browsers and answers requests under [/go/] either with a plain 302 or
    with an interstitial document that tries to escape to the native
    browser.

    JavaScript strings are sequences of UTF-16 code units; they are modelled
    as lists of [N].  Functions that can throw return a [completion].  The
    parts of the host platform whose tables are not part of the repository
    (Unicode case mapping, the WHATWG URL parser) are the fields of the
    class [JSRuntime]. *)

From Stdlib Require Import List NArith ZArith Ascii String Bool Lia.
Import ListNotations.
Local Open Scope N_scope.

(** ** JavaScript strings *)

Definition codeUnit := N.
Definition jsstring := list codeUnit.

(** An ASCII literal as a JavaScript string. *)
Definition js (s : string) : jsstring :=
  map N_of_ascii (list_ascii_of_string s).

Definition jsstring_eqb (a b : jsstring) : bool :=
  if list_eq_dec N.eq_dec a b then true else false.

(** [String.prototype.startsWith] (position 0). *)
Fixpoint startsWith (s p : jsstring) {struct p} : bool :=
  match p, s with
  | [], _ => true
  | _ :: _, [] => false
  | b :: p', a :: s' => (a =? b) && startsWith s' p'
  end.

(** [String.prototype.includes] (position 0): some suffix of [s] starts
    with [m]. *)
Fixpoint includes (s m : jsstring) : bool :=
  startsWith s m ||
  match s with
  | [] => false
  | _ :: s' => includes s' m
  end.

(** The mathematical meaning of substring containment. *)
Definition Contains (s m : jsstring) : Prop :=
  exists pre post, s = pre ++ m ++ post.

(** [String.prototype.split] with a string separator: the pieces between
    the non-overlapping occurrences of the separator, found left to right.
    [skip] counts the code units of a separator occurrence still to be
    passed over and [cur] is the current piece, reversed.  With the empty
    separator the string is cut into its code units. *)
Fixpoint split_from (sep s : jsstring) (skip : nat) (cur : jsstring)
  : list jsstring :=
  match s with
  | [] => [rev cur]
  | c :: s' =>
      match skip with
      | S k => split_from sep s' k cur
      | O =>
          if startsWith s sep
          then rev cur :: split_from sep s' (Nat.pred (List.length sep)) []
          else split_from sep s' 0 (c :: cur)
      end
  end.

Definition split (s sep : jsstring) : list jsstring :=
  match sep with
  | [] => match s with [] => [] | _ => map (fun c => [c]) s end
  | _ => split_from sep s 0 []
  end.

(** ** Completions

    A JavaScript call either returns normally or throws. *)

Inductive JSError := URIError | TypeError | RangeError.

Inductive completion (A : Type) : Type :=
| Normal (a : A)
| Throw (e : JSError).
Arguments Normal {A} a.
Arguments Throw {A} e.

Definition bind {A B : Type} (c : completion A) (k : A -> completion B)
  : completion B :=
  match c with
  | Normal a => k a
  | Throw e => Throw e
  end.

Notation "x <- c1 ;; c2" := (bind c1 (fun x => c2))
  (at level 61, c1 at next level, right associativity).

(** ** Percent-decoding: [decodeURIComponent] (ECMAScript, Decode)

    The input is scanned left to right.  [%XX] stands for an octet; any
    other code unit stands for itself.  An octet below 0x80 is a character;
    an octet with [n] leading one bits (2 <= n <= 4) must be followed by
    [n - 1] further escaped octets which together are the UTF-8 encoding of
    one code point; everything else throws [URIError].  The scan is split
    in two passes ([unescape], then [decodeOctets]); every failure is the
    same [URIError], so the order in which they are found does not show. *)

Definition hexValue (c : codeUnit) : option N :=
  if (48 <=? c) && (c <=? 57) then Some (c - 48)
  else if (65 <=? c) && (c <=? 70) then Some (c - 55)
  else if (97 <=? c) && (c <=? 102) then Some (c - 87)
  else None.

Inductive token :=
| Unit (c : codeUnit)
| Octet (b : N).

Fixpoint unescape (s : jsstring) : completion (list token) :=
  match s with
  | [] => Normal []
  | c :: s1 =>
      if c =? 37 then
        match s1 with
        | h1 :: h2 :: s3 =>
            match hexValue h1, hexValue h2 with
            | Some a, Some b =>
                ts <- unescape s3 ;; Normal (Octet (16 * a + b) :: ts)
            | _, _ => Throw URIError
            end
        | _ => Throw URIError
        end
      else ts <- unescape s1 ;; Normal (Unit c :: ts)
  end.

Definition isCont (b : N) : bool := (128 <=? b) && (b <=? 191).

Definition isSurrogate (c : N) : bool := (55296 <=? c) && (c <=? 57343).

Definition UTF16EncodeCodePoint (cp : N) : jsstring :=
  if cp <? 65536 then [cp]
  else [55296 + (cp - 65536) / 1024; 56320 + (cp - 65536) mod 1024].

Fixpoint decodeOctets (ts : list token) : completion jsstring :=
  match ts with
  | [] => Normal []
  | Unit c :: r => s <- decodeOctets r ;; Normal (c :: s)
  | Octet b :: r =>
      if b <? 128 then s <- decodeOctets r ;; Normal (b :: s)
      else if b <? 192 then Throw URIError
      else if b <? 224 then
        match r with
        | Octet b2 :: r2 =>
            let cp := (b - 192) * 64 + (b2 - 128) in
            if isCont b2 && (128 <=? cp)
            then s <- decodeOctets r2 ;; Normal (UTF16EncodeCodePoint cp ++ s)
            else Throw URIError
        | _ => Throw URIError
        end
      else if b <? 240 then
        match r with
        | Octet b2 :: Octet b3 :: r3 =>
            let cp := (b - 224) * 4096 + (b2 - 128) * 64 + (b3 - 128) in
            if isCont b2 && isCont b3 && (2048 <=? cp) && negb (isSurrogate cp)
            then s <- decodeOctets r3 ;; Normal (UTF16EncodeCodePoint cp ++ s)
            else Throw URIError
        | _ => Throw URIError
        end
      else if b <? 248 then
        match r with
        | Octet b2 :: Octet b3 :: Octet b4 :: r4 =>
            let cp := (b - 240) * 262144 + (b2 - 128) * 4096
                      + (b3 - 128) * 64 + (b4 - 128) in
            if isCont b2 && isCont b3 && isCont b4
               && (65536 <=? cp) && (cp <=? 1114111)
            then s <- decodeOctets r4 ;; Normal (UTF16EncodeCodePoint cp ++ s)
            else Throw URIError
        | _ => Throw URIError
        end
      else Throw URIError
  end.

Definition decodeURIComponent (s : jsstring) : completion jsstring :=
  ts <- unescape s ;; decodeOctets ts.

(** ** Percent-encoding: [encodeURIComponent] (ECMAScript, Encode)

    The worker only decodes; this is the standard encoder a link author
    applies to a destination before appending it to [/go/]. *)

Definition isUnescaped (c : codeUnit) : bool :=
  ((48 <=? c) && (c <=? 57)) || ((65 <=? c) && (c <=? 90))
  || ((97 <=? c) && (c <=? 122))
  || existsb (N.eqb c) [45; 95; 46; 33; 126; 42; 39; 40; 41].

Definition hexDigit (n : N) : codeUnit :=
  if n <? 10 then 48 + n else 55 + n.

Definition pct (b : N) : jsstring :=
  [37; hexDigit (b / 16); hexDigit (b mod 16)].

Definition utf8 (cp : N) : list N :=
  if cp <? 128 then [cp]
  else if cp <? 2048 then [192 + cp / 64; 128 + cp mod 64]
  else if cp <? 65536 then
    [224 + cp / 4096; 128 + (cp / 64) mod 64; 128 + cp mod 64]
  else
    [240 + cp / 262144; 128 + (cp / 4096) mod 64;
     128 + (cp / 64) mod 64; 128 + cp mod 64].

Definition isLead (c : codeUnit) : bool := (55296 <=? c) && (c <=? 56319).
Definition isTrail (c : codeUnit) : bool := (56320 <=? c) && (c <=? 57343).

Definition pairCodePoint (lead trail : codeUnit) : N :=
  65536 + (lead - 55296) * 1024 + (trail - 56320).

Fixpoint encodeURIComponent (s : jsstring) : completion jsstring :=
  match s with
  | [] => Normal []
  | c :: r =>
      if isUnescaped c then e <- encodeURIComponent r ;; Normal (c :: e)
      else if isLead c then
        match r with
        | c2 :: r2 =>
            if isTrail c2
            then e <- encodeURIComponent r2 ;;
                 Normal (flat_map pct (utf8 (pairCodePoint c c2)) ++ e)
            else Throw URIError
        | [] => Throw URIError
        end
      else if isTrail c then Throw URIError
      else e <- encodeURIComponent r ;; Normal (flat_map pct (utf8 c) ++ e)
  end.

(** The representation invariant of a string (every code unit has 16
    bits), the scalar values (code points that are not surrogates) and
    [String.prototype.isWellFormed] (no surrogate stands alone). *)
Definition codeUnits16 (s : jsstring) : bool :=
  forallb (fun c => c <? 65536) s.

Definition isScalar (cp : N) : bool := (cp <=? 1114111) && negb (isSurrogate cp).

Fixpoint isWellFormed (s : jsstring) : bool :=
  match s with
  | [] => true
  | c :: r =>
      if isLead c then
        match r with
        | c2 :: r2 => isTrail c2 && isWellFormed r2
        | [] => false
        end
      else negb (isTrail c) && isWellFormed r
  end.

(** ** Case mapping on ASCII *)

Definition isASCII (c : codeUnit) : bool := c <? 128.

Definition asciiLower (c : codeUnit) : codeUnit :=
  if (65 <=? c) && (c <=? 90) then c + 32 else c.

(** ** URLs as the platform hands them to the worker *)

Record URL := mkURL {
  href : jsstring;
  pathname : jsstring;
  searchParams : list (jsstring * jsstring)
}.

(** [URLSearchParams.prototype.get]: the value of the first pair with the
    given name, [None] for JavaScript's [null]. *)
Fixpoint searchParams_get (ps : list (jsstring * jsstring)) (name : jsstring)
  : option jsstring :=
  match ps with
  | [] => None
  | (k, v) :: ps' =>
      if jsstring_eqb k name then Some v else searchParams_get ps' name
  end.

(** ** The host platform

    [toLowerCase] is [String.prototype.toLowerCase]; all the worker relies
    on is kept as a law: on ASCII text it lowers exactly the letters A-Z.
    [URL_new s] is [new URL(s)]: [None] when the constructor throws. *)
Class JSRuntime := {
  toLowerCase : jsstring -> jsstring;
  toLowerCase_ascii :
    forall s, forallb isASCII s = true -> toLowerCase s = map asciiLower s;
  URL_new : jsstring -> option URL
}.

(** ** Classification (worker.js, lines 24-53) *)

Definition inAppBrowsers : list jsstring :=
  [ js "instagram";
    js "fban";
    js "fbav";
    js "twitter";
    js "line/";
    js "micromessenger";
    js "kakao";
    js "telegram" ].

Section Classification.
Context `{JSRuntime}.

Definition isInAppBrowser (userAgent : jsstring) : bool :=
  let ua := toLowerCase userAgent in
  existsb (fun browser => includes ua browser) inAppBrowsers.

Definition getPlatform (userAgent : jsstring) : jsstring :=
  let ua := toLowerCase userAgent in
  if includes ua (js "iphone") || includes ua (js "ipad") then js "ios"
  else if includes ua (js "android") then js "android"
  else js "unknown".

End Classification.

(** ** [JSON.stringify] on a string (ECMAScript, QuoteJSONString)

    The string is read by code points: a lead surrogate followed by a trail
    surrogate passes unchanged, a surrogate on its own is written as a
    [\u] escape, and so are the control characters without a short form. *)

Definition dq : jsstring := [34].
Definition backslash : codeUnit := 92.

Definition lowerHexDigit (n : N) : codeUnit :=
  if n <? 10 then 48 + n else 87 + n.

Definition UnicodeEscape (c : N) : jsstring :=
  [backslash; 117; lowerHexDigit (c / 4096); lowerHexDigit ((c / 256) mod 16);
   lowerHexDigit ((c / 16) mod 16); lowerHexDigit (c mod 16)].

Definition quoteCodeUnit (c : codeUnit) : jsstring :=
  if c =? 8 then [backslash; 98]
  else if c =? 9 then [backslash; 116]
  else if c =? 10 then [backslash; 110]
  else if c =? 12 then [backslash; 102]
  else if c =? 13 then [backslash; 114]
  else if c =? 34 then [backslash; 34]
  else if c =? 92 then [backslash; backslash]
  else if (c <? 32) || isSurrogate c then UnicodeEscape c
  else [c].

Fixpoint quoteChars (s : jsstring) : jsstring :=
  match s with
  | [] => []
  | c :: r =>
      if isLead c then
        match r with
        | c2 :: r2 =>
            if isTrail c2 then c :: c2 :: quoteChars r2
            else UnicodeEscape c ++ quoteChars r
        | [] => UnicodeEscape c
        end
      else quoteCodeUnit c ++ quoteChars r
  end.

Definition JSON_stringify (s : jsstring) : jsstring :=
  dq ++ quoteChars s ++ dq.

(** ** The interstitial document (worker.js, lines 112-269)

    The template literal of [generateRedirectHTML], cut at its three
    substitutions.  Inside the template [\\/] denotes the two characters
    backslash and slash. *)

Definition html_head : jsstring :=
  js "<!DOCTYPE html>
<html lang=" ++ dq ++ js "en" ++ dq ++ js ">
<head>
    <meta charset=" ++ dq ++ js "UTF-8" ++ dq ++ js ">
    <meta name=" ++ dq ++ js "viewport" ++ dq ++ js " content=" ++ dq ++ js "width=device-width, initial-scale=1.0" ++ dq ++ js ">
    <title>Opening in browser...</title>
    <style>
        * {
            margin: 0;
            padding: 0;
            box-sizing: border-box;
        }
        
        body {
            font-family: -apple-system, BlinkMacSystemFont, 'Segoe UI', Roboto, sans-serif;
            background: linear-gradient(135deg, #667eea 0%, #764ba2 100%);
            min-height: 100vh;
            display: flex;
            flex-direction: column;
            justify-content: center;
            align-items: center;
            padding: 20px;
            color: white;
        }
        
        .container {
            max-width: 500px;
            text-align: center;
        }
        
        .loader {
            width: 50px;
            height: 50px;
            border: 5px solid rgba(255, 255, 255, 0.3);
            border-top-color: white;
            border-radius: 50%;
            animation: spin 1s linear infinite;
            margin: 0 auto 30px;
        }
        
        @keyframes spin {
            to { transform: rotate(360deg); }
        }
        
        h1 {
            font-size: 24px;
            margin-bottom: 15px;
            font-weight: 600;
        }
        
        p {
            font-size: 16px;
            line-height: 1.6;
            opacity: 0.9;
            margin-bottom: 20px;
        }
        
        .manual-link {
            display: inline-block;
            background: white;
            color: #667eea;
            padding: 12px 24px;
            border-radius: 8px;
            text-decoration: none;
            font-weight: 600;
            margin-top: 20px;
            transition: transform 0.2s;
        }
        
        .manual-link:hover {
            transform: scale(1.05);
        }
        
        .instructions {
            margin-top: 30px;
            padding: 20px;
            background: rgba(255, 255, 255, 0.1);
            border-radius: 12px;
            font-size: 14px;
            line-height: 1.8;
        }
    </style>
</head>
<body>
    <div class=" ++ dq ++ js "container" ++ dq ++ js ">
        <div class=" ++ dq ++ js "loader" ++ dq ++ js "></div>
        <h1>Opening in your browser...</h1>
        <p>You're being redirected to your default browser for a better experience.</p>
        
        <div class=" ++ dq ++ js "instructions" ++ dq ++ js ">
            <strong>If the redirect doesn't work:</strong><br>
            Tap the <strong>" ++ dq ++ [8226] ++ [8226] ++ [8226] ++ dq ++ js "</strong> menu at the top and select<br>
            <strong>" ++ dq ++ js "Open in Browser" ++ dq ++ js "</strong> or <strong>" ++ dq ++ js "Open in Safari/Chrome" ++ dq ++ js "</strong>
        </div>
        
        <a href=" ++ dq.

Definition html_after_href : jsstring :=
  dq ++ js " class=" ++ dq ++ js "manual-link" ++ dq ++ js ">Continue Manually</a>
    </div>

    <script>
        const destinationUrl = ".

Definition html_after_destination : jsstring :=
  js ";
        const platform = ".

Definition html_tail : jsstring :=
  js ";
        
        // Function to attempt redirect
        function attemptRedirect() {
            if (platform === 'android') {
                // Android: Use intent URL to force external browser
                const intentUrl = 'intent://' + destinationUrl.replace(/https?:\/\//, '') + '#Intent;end';
                window.location.href = intentUrl;
                
                // Fallback after a delay
                setTimeout(() => {
                    window.location.href = destinationUrl;
                }, 500);
            } else if (platform === 'ios') {
                // iOS: Try multiple methods
                
                // Method 1: Try googlechrome:// or firefox:// schemes
                const isChrome = navigator.userAgent.includes('CriOS');
                const isFirefox = navigator.userAgent.includes('FxiOS');
                
                if (isChrome) {
                    const chromeUrl = 'googlechrome://' + destinationUrl.replace(/https?:\/\//, '');
                    window.location.href = chromeUrl;
                    setTimeout(() => {
                        window.location.href = destinationUrl;
                    }, 500);
                } else if (isFirefox) {
                    const firefoxUrl = 'firefox://' + destinationUrl.replace(/https?:\/\//, '');
                    window.location.href = firefoxUrl;
                    setTimeout(() => {
                        window.location.href = destinationUrl;
                    }, 500);
                } else {
                    // Default: Try x-safari-https scheme
                    const safariUrl = 'x-safari-https://' + destinationUrl.replace(/https?:\/\//, '');
                    window.location.href = safariUrl;
                    setTimeout(() => {
                        window.location.href = destinationUrl;
                    }, 500);
                }
            } else {
                // Unknown platform or desktop - just redirect
                window.location.href = destinationUrl;
            }
        }
        
        // Attempt redirect on load
        window.addEventListener('load', () => {
            setTimeout(attemptRedirect, 1000);
        });
        
        // Also try immediately (belt and suspenders approach)
        attemptRedirect();
    </script>
</body>
</html>".

Definition generateRedirectHTML (destinationUrl platform : jsstring)
  : jsstring :=
  html_head ++ destinationUrl ++ html_after_href
  ++ JSON_stringify destinationUrl ++ html_after_destination
  ++ JSON_stringify platform ++ html_tail.

(** ** Requests and responses *)

Record Request := mkRequest {
  req_method : jsstring;
  req_url : jsstring;
  req_headers : list (jsstring * jsstring);
  req_body : option jsstring
}.

Record Response := mkResponse {
  status : N;
  headers : list (jsstring * jsstring);
  body : option jsstring
}.

(** Header names are compared without regard to ASCII case, and
    [Headers.prototype.get] joins the values of a repeated header with a
    comma and a space. *)
Definition headerNameEq (a b : jsstring) : bool :=
  jsstring_eqb (map asciiLower a) (map asciiLower b).

Fixpoint Headers_get (hs : list (jsstring * jsstring)) (name : jsstring)
  : option jsstring :=
  match hs with
  | [] => None
  | (k, v) :: hs' =>
      if headerNameEq k name then
        Some (match Headers_get hs' name with
              | None => v
              | Some w => v ++ js ", " ++ w
              end)
      else Headers_get hs' name
  end.

(** The static-asset binding [env.ASSETS]. *)
Record Env := mkEnv {
  ASSETS_fetch : Request -> completion Response
}.

Inductive ExecutionContext := executionContext.

(** JavaScript's [x || ''] and [!x] on a string-or-null value. *)
Definition orEmpty (v : option jsstring) : jsstring :=
  match v with
  | Some (c :: r) => c :: r
  | _ => []
  end.

Definition truthy (v : option jsstring) : bool :=
  match v with
  | Some (_ :: _) => true
  | _ => false
  end.

Definition missingDestinationMessage : jsstring :=
  js "Missing destination URL. Use /go/https://example.com or /go/?url=https://example.com".

Definition invalidDestinationMessage : jsstring :=
  js "Invalid destination URL".

(** ** The request handler (worker.js, lines 6-19 and 58-107) *)

Section Handler.
Context `{JSRuntime}.

(** [Response.redirect(url, status)] (Fetch): the URL is parsed and the
    [Location] header is its serialization. *)
Definition Response_redirect (url : jsstring) (st : N) : completion Response :=
  match URL_new url with
  | None => Throw TypeError
  | Some parsed =>
      if existsb (N.eqb st) [301; 302; 303; 307; 308]
      then Normal (mkResponse st [(js "Location", href parsed)] None)
      else Throw RangeError
  end.

(** Lines 61-70: the destination from the path, else from the query. *)
Definition destinationCandidate (url : URL) : completion (option jsstring) :=
  let pathParts := split (pathname url) (js "/go/") in
  if Nat.ltb 1 (List.length pathParts) && truthy (nth_error pathParts 1)
  then d <- decodeURIComponent (nth 1 pathParts []) ;; Normal (Some d)
  else Normal (searchParams_get (searchParams url) (js "url")).

Definition handleRedirect (request : Request) (url : URL)
  (userAgent : jsstring) : completion Response :=
  destinationUrl <- destinationCandidate url ;;
  if negb (truthy destinationUrl) then
    Normal (mkResponse 400 [(js "Content-Type", js "text/plain")]
              (Some missingDestinationMessage))
  else
    let destinationUrl := orEmpty destinationUrl in
    match URL_new destinationUrl with
    | None =>
        Normal (mkResponse 400 [(js "Content-Type", js "text/plain")]
                  (Some invalidDestinationMessage))
    | Some _ =>
        if negb (isInAppBrowser userAgent) then
          Response_redirect destinationUrl 302
        else
          let platform := getPlatform userAgent in
          Normal (mkResponse 200
                    [(js "Content-Type", js "text/html;charset=UTF-8");
                     (js "Cache-Control",
                      js "no-cache, no-store, must-revalidate")]
                    (Some (generateRedirectHTML destinationUrl platform)))
    end.

Definition fetch (request : Request) (env : Env) (ctx : ExecutionContext)
  : completion Response :=
  match URL_new (req_url request) with
  | None => Throw TypeError
  | Some url =>
      let userAgent :=
        orEmpty (Headers_get (req_headers request) (js "user-agent")) in
      if startsWith (pathname url) (js "/go/")
      then handleRedirect request url userAgent
      else ASSETS_fetch env request
  end.

End Handler.

(** ** The script of the interstitial document (worker.js, lines 211-266)

    What the embedded script does in the browser, given the values of its
    two constants and of [navigator.userAgent]. *)

Local Unset Elimination Schemes.
Local Set Elimination Schemes.

(** [s.replace(/https?:\/\//, '')]: the leftmost occurrence of [http://]
    or [https://] is removed. *)
Fixpoint replaceScheme (s : jsstring) : jsstring :=
  match s with
  | [] => []
  | c :: r =>
      if startsWith s (js "https://") then skipn 8 s
      else if startsWith s (js "http://") then skipn 7 s
      else c :: replaceScheme r
  end.



(** ** Reading the document back

    The raw text of the [href] attribute of the manual link: in the
    tokenizer's attribute-value (double-quoted) state the value ends at the
    first quotation mark. *)

Fixpoint untilQuote (s : jsstring) : jsstring :=
  match s with
  | [] => []
  | c :: r => if c =? 34 then [] else c :: untilQuote r
  end.

(** The text that follows the first occurrence of [marker]. *)
Fixpoint afterFirst (marker s : jsstring) : option jsstring :=
  if startsWith s marker then Some (skipn (List.length marker) s)
  else match s with
       | [] => None
       | _ :: r => afterFirst marker r
       end.

Definition manualLinkHref (doc : jsstring) : option jsstring :=
  option_map untilQuote (afterFirst (js "<a href=" ++ dq) doc).

(** ** The HTML tokenizer

    The script a browser runs is the text of the script element its parser
    finds.  The tokenizer of the HTML Standard is followed state by state,
    one code unit at a time: data, tags with their attributes (the three
    kinds of attribute value), comments, the DOCTYPE (every state of which
    is left at the first greater-than sign), the raw text of [style],
    [title] and their like (left only at the matching end tag), and the
    script data states with their escaped and double-escaped variants.  A
    state that reconsumes the current character in another state is
    written with the step of that other state.  Character references change
    no state and are not expanded.  The document is taken as HTML content
    with scripting enabled; foreign content (SVG, MathML), [select],
    [template] and [frameset] are not modelled. *)

(** The preprocessing of the input stream: CR LF and CR become LF. *)
Fixpoint normalizeNewlines (s : jsstring) : jsstring :=
  match s with
  | [] => []
  | c :: r =>
      if c =? 13 then
        10 :: match r with
              | c2 :: r2 =>
                  if c2 =? 10 then normalizeNewlines r2
                  else normalizeNewlines r
              | [] => []
              end
      else c :: normalizeNewlines r
  end.

Definition isWhitespace (c : codeUnit) : bool :=
  existsb (N.eqb c) [9; 10; 12; 32].

Definition isAlpha (c : codeUnit) : bool :=
  ((65 <=? c) && (c <=? 90)) || ((97 <=? c) && (c <=? 122)).

(** U+0000 is replaced by U+FFFD where the tokenizer keeps text. *)
Definition replaceNull (c : codeUnit) : codeUnit :=
  if c =? 0 then 65533 else c.

Inductive tagPart :=
| TagNamePart
| BeforeAttributeName
| AttributeName
| AfterAttributeName
| BeforeAttributeValue
| AttributeValueDoubleQuoted
| AttributeValueSingleQuoted
| AttributeValueUnquoted
| AfterAttributeValueQuoted
| SelfClosingStartTag.

(** A tag token under construction; [closesScript] marks the end tag that
    matches the open script element. *)
Record tag := mkTag {
  isEndTag : bool;
  tagName : jsstring;
  closesScript : bool
}.

Inductive commentState :=
| CommentStart
| CommentStartDash
| CommentText
| CommentLessThan
| CommentLessThanBang
| CommentLessThanBangDash
| CommentEndDash
| CommentEnd
| CommentEndBang.

Inductive rawTextState :=
| RawText
| RawTextLessThan
| RawTextEndTagOpen
| RawTextEndTagName (buffer : jsstring).

Inductive scriptState :=
| ScriptData
| ScriptLessThan
| ScriptEndTagOpen
| ScriptEndTagName (buffer : jsstring)
| EscapeStart
| EscapeStartDash
| Escaped
| EscapedDash
| EscapedDashDash
| EscapedLessThan
| EscapedEndTagOpen
| EscapedEndTagName (buffer : jsstring)
| DoubleEscapeStart (buffer : jsstring)
| DoubleEscaped
| DoubleEscapedDash
| DoubleEscapedDashDash
| DoubleEscapedLessThan
| DoubleEscapeEnd (buffer : jsstring).

Inductive tokenizerState :=
| Data
| TagOpen
| EndTagOpen
| InTag (t : tag) (part : tagPart)
| MarkupDeclarationOpen
| BogusComment
| InComment (c : commentState)
| Doctype
| InRawText (element : jsstring) (r : rawTextState)
| PlainText
| InScript (s : scriptState)
| Skip (n : nat) (next : tokenizerState).

(** What one code unit does: a new state, a new state with script text
    emitted, or the end of the script element. *)
Inductive outcome :=
| Step (st : tokenizerState)
| Emit (text : jsstring) (st : tokenizerState)
| ScriptEnd.

(** The elements whose content the tokenizer reads as raw text or as
    RCDATA once their start tag is emitted. *)
Definition rawTextElements : list jsstring :=
  [ js "style"; js "xmp"; js "iframe"; js "noembed"; js "noframes";
    js "noscript"; js "title"; js "textarea" ].

Definition emitTag (t : tag) : outcome :=
  if closesScript t then ScriptEnd
  else if isEndTag t then Step Data
  else if jsstring_eqb (tagName t) (js "script") then Step (InScript ScriptData)
  else if existsb (jsstring_eqb (tagName t)) rawTextElements
       then Step (InRawText (tagName t) RawText)
  else if jsstring_eqb (tagName t) (js "plaintext") then Step PlainText
  else Step Data.

Definition tagChar (t : tag) (part : tagPart) (c : codeUnit) : outcome :=
  match part with
  | TagNamePart =>
      if isWhitespace c then Step (InTag t BeforeAttributeName)
      else if c =? 47 then Step (InTag t SelfClosingStartTag)
      else if c =? 62 then emitTag t
      else Step (InTag (mkTag (isEndTag t)
                          (tagName t ++ [replaceNull (asciiLower c)])
                          (closesScript t))
                   TagNamePart)
  | BeforeAttributeName =>
      if isWhitespace c then Step (InTag t BeforeAttributeName)
      else if c =? 47 then Step (InTag t SelfClosingStartTag)
      else if c =? 62 then emitTag t
      else Step (InTag t AttributeName)
  | AttributeName =>
      if isWhitespace c then Step (InTag t AfterAttributeName)
      else if c =? 47 then Step (InTag t SelfClosingStartTag)
      else if c =? 62 then emitTag t
      else if c =? 61 then Step (InTag t BeforeAttributeValue)
      else Step (InTag t AttributeName)
  | AfterAttributeName =>
      if isWhitespace c then Step (InTag t AfterAttributeName)
      else if c =? 47 then Step (InTag t SelfClosingStartTag)
      else if c =? 61 then Step (InTag t BeforeAttributeValue)
      else if c =? 62 then emitTag t
      else Step (InTag t AttributeName)
  | BeforeAttributeValue =>
      if isWhitespace c then Step (InTag t BeforeAttributeValue)
      else if c =? 34 then Step (InTag t AttributeValueDoubleQuoted)
      else if c =? 39 then Step (InTag t AttributeValueSingleQuoted)
      else if c =? 62 then emitTag t
      else Step (InTag t AttributeValueUnquoted)
  | AttributeValueDoubleQuoted =>
      if c =? 34 then Step (InTag t AfterAttributeValueQuoted)
      else Step (InTag t AttributeValueDoubleQuoted)
  | AttributeValueSingleQuoted =>
      if c =? 39 then Step (InTag t AfterAttributeValueQuoted)
      else Step (InTag t AttributeValueSingleQuoted)
  | AttributeValueUnquoted =>
      if isWhitespace c then Step (InTag t BeforeAttributeName)
      else if c =? 62 then emitTag t
      else Step (InTag t AttributeValueUnquoted)
  | AfterAttributeValueQuoted =>
      if isWhitespace c then Step (InTag t BeforeAttributeName)
      else if c =? 47 then Step (InTag t SelfClosingStartTag)
      else if c =? 62 then emitTag t
      else Step (InTag t AttributeName)
  | SelfClosingStartTag =>
      if c =? 62 then emitTag t
      else if isWhitespace c then Step (InTag t BeforeAttributeName)
      else if c =? 47 then Step (InTag t SelfClosingStartTag)
      else Step (InTag t AttributeName)
  end.

Definition dataChar (c : codeUnit) : outcome :=
  if c =? 60 then Step TagOpen else Step Data.

Definition bogusCommentChar (c : codeUnit) : outcome :=
  if c =? 62 then Step Data else Step BogusComment.

Definition commentTextChar (c : codeUnit) : outcome :=
  if c =? 60 then Step (InComment CommentLessThan)
  else if c =? 45 then Step (InComment CommentEndDash)
  else Step (InComment CommentText).

Definition commentEndDashChar (c : codeUnit) : outcome :=
  if c =? 45 then Step (InComment CommentEnd) else commentTextChar c.

Definition commentChar (st : commentState) (c : codeUnit) : outcome :=
  match st with
  | CommentStart =>
      if c =? 45 then Step (InComment CommentStartDash)
      else if c =? 62 then Step Data
      else commentTextChar c
  | CommentStartDash =>
      if c =? 45 then Step (InComment CommentEnd)
      else if c =? 62 then Step Data
      else commentTextChar c
  | CommentText => commentTextChar c
  | CommentLessThan =>
      if c =? 33 then Step (InComment CommentLessThanBang)
      else if c =? 60 then Step (InComment CommentLessThan)
      else commentTextChar c
  | CommentLessThanBang =>
      if c =? 45 then Step (InComment CommentLessThanBangDash)
      else commentTextChar c
  | CommentLessThanBangDash =>
      if c =? 45 then Step (InComment CommentEnd) else commentEndDashChar c
  | CommentEndDash => commentEndDashChar c
  | CommentEnd =>
      if c =? 62 then Step Data
      else if c =? 33 then Step (InComment CommentEndBang)
      else if c =? 45 then Step (InComment CommentEnd)
      else commentTextChar c
  | CommentEndBang =>
      if c =? 45 then Step (InComment CommentEndDash)
      else if c =? 62 then Step Data
      else commentTextChar c
  end.

Definition rawTextChar (element : jsstring) (c : codeUnit) : outcome :=
  if c =? 60 then Step (InRawText element RawTextLessThan)
  else Step (InRawText element RawText).

Definition rawChar (element : jsstring) (st : rawTextState) (c : codeUnit)
  : outcome :=
  match st with
  | RawText => rawTextChar element c
  | RawTextLessThan =>
      if c =? 47 then Step (InRawText element RawTextEndTagOpen)
      else rawTextChar element c
  | RawTextEndTagOpen =>
      if isAlpha c then Step (InRawText element (RawTextEndTagName [c]))
      else rawTextChar element c
  | RawTextEndTagName buffer =>
      if isAlpha c
      then Step (InRawText element (RawTextEndTagName (buffer ++ [c])))
      else if jsstring_eqb (map asciiLower buffer) element then
        if isWhitespace c
        then Step (InTag (mkTag true element false) BeforeAttributeName)
        else if c =? 47
        then Step (InTag (mkTag true element false) SelfClosingStartTag)
        else if c =? 62 then Step Data
        else rawTextChar element c
      else rawTextChar element c
  end.

(** Script text emitted before the current character is handled again. *)
Definition emitBefore (text : jsstring) (o : outcome) : outcome :=
  match o with
  | Step st => Emit text st
  | Emit more st => Emit (text ++ more) st
  | ScriptEnd => ScriptEnd
  end.

Definition scriptDataChar (c : codeUnit) : outcome :=
  if c =? 60 then Step (InScript ScriptLessThan)
  else Emit [replaceNull c] (InScript ScriptData).

Definition escapedChar (c : codeUnit) : outcome :=
  if c =? 45 then Emit [45] (InScript EscapedDash)
  else if c =? 60 then Step (InScript EscapedLessThan)
  else Emit [replaceNull c] (InScript Escaped).

Definition doubleEscapedChar (c : codeUnit) : outcome :=
  if c =? 45 then Emit [45] (InScript DoubleEscapedDash)
  else if c =? 60 then Emit [60] (InScript DoubleEscapedLessThan)
  else Emit [replaceNull c] (InScript DoubleEscaped).

Definition endsTagName (c : codeUnit) : bool :=
  isWhitespace c || (c =? 47) || (c =? 62).

(** The end tag name states of script data: [fallback] is the step of the
    state returned to when the name is not [script]. *)
Definition scriptEndTagNameChar (buffer : jsstring)
  (again : jsstring -> scriptState) (fallback : codeUnit -> outcome)
  (c : codeUnit) : outcome :=
  if isAlpha c then Step (InScript (again (buffer ++ [c])))
  else if jsstring_eqb (map asciiLower buffer) (js "script")
          && endsTagName c
  then
    if c =? 62 then ScriptEnd
    else if c =? 47
    then Step (InTag (mkTag true (js "script") true) SelfClosingStartTag)
    else Step (InTag (mkTag true (js "script") true) BeforeAttributeName)
  else emitBefore ([60; 47] ++ buffer) (fallback c).

Definition scriptChar (st : scriptState) (c : codeUnit) : outcome :=
  match st with
  | ScriptData => scriptDataChar c
  | ScriptLessThan =>
      if c =? 47 then Step (InScript ScriptEndTagOpen)
      else if c =? 33 then Emit [60; 33] (InScript EscapeStart)
      else emitBefore [60] (scriptDataChar c)
  | ScriptEndTagOpen =>
      if isAlpha c then Step (InScript (ScriptEndTagName [c]))
      else emitBefore [60; 47] (scriptDataChar c)
  | ScriptEndTagName buffer =>
      scriptEndTagNameChar buffer ScriptEndTagName scriptDataChar c
  | EscapeStart =>
      if c =? 45 then Emit [45] (InScript EscapeStartDash)
      else scriptDataChar c
  | EscapeStartDash =>
      if c =? 45 then Emit [45] (InScript EscapedDashDash)
      else scriptDataChar c
  | Escaped => escapedChar c
  | EscapedDash =>
      if c =? 45 then Emit [45] (InScript EscapedDashDash)
      else if c =? 60 then Step (InScript EscapedLessThan)
      else Emit [replaceNull c] (InScript Escaped)
  | EscapedDashDash =>
      if c =? 45 then Emit [45] (InScript EscapedDashDash)
      else if c =? 60 then Step (InScript EscapedLessThan)
      else if c =? 62 then Emit [62] (InScript ScriptData)
      else Emit [replaceNull c] (InScript Escaped)
  | EscapedLessThan =>
      if c =? 47 then Step (InScript EscapedEndTagOpen)
      else if isAlpha c
      then Emit [60; c] (InScript (DoubleEscapeStart [asciiLower c]))
      else emitBefore [60] (escapedChar c)
  | EscapedEndTagOpen =>
      if isAlpha c then Step (InScript (EscapedEndTagName [c]))
      else emitBefore [60; 47] (escapedChar c)
  | EscapedEndTagName buffer =>
      scriptEndTagNameChar buffer EscapedEndTagName escapedChar c
  | DoubleEscapeStart buffer =>
      if endsTagName c then
        if jsstring_eqb buffer (js "script")
        then Emit [c] (InScript DoubleEscaped)
        else Emit [c] (InScript Escaped)
      else if isAlpha c
      then Emit [c] (InScript (DoubleEscapeStart (buffer ++ [asciiLower c])))
      else escapedChar c
  | DoubleEscaped => doubleEscapedChar c
  | DoubleEscapedDash =>
      if c =? 45 then Emit [45] (InScript DoubleEscapedDashDash)
      else if c =? 60 then Emit [60] (InScript DoubleEscapedLessThan)
      else Emit [replaceNull c] (InScript DoubleEscaped)
  | DoubleEscapedDashDash =>
      if c =? 45 then Emit [45] (InScript DoubleEscapedDashDash)
      else if c =? 60 then Emit [60] (InScript DoubleEscapedLessThan)
      else if c =? 62 then Emit [62] (InScript ScriptData)
      else Emit [replaceNull c] (InScript DoubleEscaped)
  | DoubleEscapedLessThan =>
      if c =? 47 then Emit [47] (InScript (DoubleEscapeEnd []))
      else doubleEscapedChar c
  | DoubleEscapeEnd buffer =>
      if endsTagName c then
        if jsstring_eqb buffer (js "script")
        then Emit [c] (InScript Escaped)
        else Emit [c] (InScript DoubleEscaped)
      else if isAlpha c
      then Emit [c] (InScript (DoubleEscapeEnd (buffer ++ [asciiLower c])))
      else doubleEscapedChar c
  end.

(** One step of the tokenizer on the code unit [c]; [rest] is what follows
    it, looked at only where the Standard looks ahead. *)
Definition tokenizerStep (st : tokenizerState) (c : codeUnit)
  (rest : jsstring) : outcome :=
  match st with
  | Data => dataChar c
  | TagOpen =>
      if c =? 33 then Step MarkupDeclarationOpen
      else if c =? 47 then Step EndTagOpen
      else if isAlpha c
      then Step (InTag (mkTag false [asciiLower c] false) TagNamePart)
      else if c =? 63 then Step BogusComment
      else dataChar c
  | EndTagOpen =>
      if isAlpha c
      then Step (InTag (mkTag true [asciiLower c] false) TagNamePart)
      else if c =? 62 then Step Data
      else Step BogusComment
  | InTag t part => tagChar t part c
  | MarkupDeclarationOpen =>
      if startsWith (c :: rest) (js "--")
      then Step (Skip 1 (InComment CommentStart))
      else if startsWith (map asciiLower (firstn 7 (c :: rest))) (js "doctype")
      then Step (Skip 6 Doctype)
      else bogusCommentChar c
  | BogusComment => bogusCommentChar c
  | InComment cs => commentChar cs c
  | Doctype => if c =? 62 then Step Data else Step Doctype
  | InRawText element r => rawChar element r c
  | PlainText => Step PlainText
  | InScript s => scriptChar s c
  | Skip n next =>
      match n with
      | S (S k) => Step (Skip (S k) next)
      | _ => Step next
      end
  end.

(** The text of the first script element whose end tag is reached, read
    from the state [st]. *)
Fixpoint firstScript (st : tokenizerState) (s : jsstring) : option jsstring :=
  match s with
  | [] => None
  | c :: r =>
      match tokenizerStep st c r with
      | Step st' => firstScript st' r
      | Emit text st' => option_map (app text) (firstScript st' r)
      | ScriptEnd => Some []
      end
  end.

(** The text of the script element of a document, as a browser reads it. *)
Definition scriptText (doc : jsstring) : option jsstring :=
  firstScript Data (normalizeNewlines doc).

(** Evaluation of a string literal of the JSON grammar, which ECMAScript
    string literals include: the value and the text after the closing
    quotation mark, [None] when the text does not start with a complete
    literal. *)
Definition hex4Value (a b c d : codeUnit) : option N :=
  match hexValue a, hexValue b, hexValue c, hexValue d with
  | Some x, Some y, Some z, Some w => Some (4096 * x + 256 * y + 16 * z + w)
  | _, _, _, _ => None
  end.

Definition simpleEscape (c : codeUnit) : option codeUnit :=
  if c =? 34 then Some 34
  else if c =? 92 then Some 92
  else if c =? 47 then Some 47
  else if c =? 98 then Some 8
  else if c =? 102 then Some 12
  else if c =? 110 then Some 10
  else if c =? 114 then Some 13
  else if c =? 116 then Some 9
  else None.

Fixpoint literalChars (s : jsstring) : option (jsstring * jsstring) :=
  match s with
  | [] => None
  | c :: r =>
      if c =? 34 then Some ([], r)
      else if c =? 92 then
        match r with
        | e :: r1 =>
            if e =? 117 then
              match r1 with
              | a :: b :: x :: y :: r5 =>
                  match hex4Value a b x y, literalChars r5 with
                  | Some u, Some (v, rest) => Some (u :: v, rest)
                  | _, _ => None
                  end
              | _ => None
              end
            else
              match simpleEscape e, literalChars r1 with
              | Some u, Some (v, rest) => Some (u :: v, rest)
              | _, _ => None
              end
        | [] => None
        end
      else if c <? 32 then None
      else
        match literalChars r with
        | Some (v, rest) => Some (c :: v, rest)
        | None => None
        end
  end.

Definition evalStringLiteral (s : jsstring) : option (jsstring * jsstring) :=
  match s with
  | c :: r => if c =? 34 then literalChars r else None
  | [] => None
  end.

Definition consValue (c : codeUnit) (r : option (jsstring * jsstring))
  : option (jsstring * jsstring) :=
  match r with
  | Some (v, rest) => Some (c :: v, rest)
  | None => None
  end.


(** ** A runtime to run the handler on concrete requests

    Lower-casing as ECMAScript defines it on the code units below 256 (the
    letters A-Z and the Latin-1 capitals), and the results of the URL
    parser on the URLs of the examples. *)

Definition latin1Lower (c : codeUnit) : codeUnit :=
  if (65 <=? c) && (c <=? 90) then c + 32
  else if (192 <=? c) && (c <=? 222) && negb (c =? 215) then c + 32
  else c.

Definition exampleURLs : list (jsstring * URL) :=
  [ (js "https://links.example/go/https%3A%2F%2Fexample.com%2Fpath%3Fa%3D1",
     mkURL (js "https://links.example/go/https%3A%2F%2Fexample.com%2Fpath%3Fa%3D1")
           (js "/go/https%3A%2F%2Fexample.com%2Fpath%3Fa%3D1") []);
    (js "https://links.example/go/?url=https://example.com",
     mkURL (js "https://links.example/go/?url=https://example.com")
           (js "/go/") [(js "url", js "https://example.com")]);
    (js "https://links.example/go/",
     mkURL (js "https://links.example/go/") (js "/go/") []);
    (js "https://links.example/go/not-a-url",
     mkURL (js "https://links.example/go/not-a-url") (js "/go/not-a-url") []);
    (js "https://example.com/path?a=1",
     mkURL (js "https://example.com/path?a=1") (js "/path")
           [(js "a", js "1")]);
    (js "https://example.com",
     mkURL (js "https://example.com/") (js "/") []) ].

Fixpoint lookupURL (table : list (jsstring * URL)) (s : jsstring)
  : option URL :=
  match table with
  | [] => None
  | (k, u) :: table' => if jsstring_eqb k s then Some u else lookupURL table' s
  end.

(** ** Concrete requests and destinations *)

Definition exampleRequest : Request :=
  mkRequest (js "GET")
    (js "https://links.example/go/https%3A%2F%2Fexample.com%2Fpath%3Fa%3D1")
    [(js "User-Agent", js "Mozilla/5.0 (X11; Linux x86_64) Firefox/120.0")]
    None.

Definition exampleRequestURL : URL :=
  mkURL (js "https://links.example/go/https%3A%2F%2Fexample.com%2Fpath%3Fa%3D1")
        (js "/go/https%3A%2F%2Fexample.com%2Fpath%3Fa%3D1") [].

Definition exampleDestination : URL :=
  mkURL (js "https://example.com/path?a=1") (js "/path") [(js "a", js "1")].

Definition firefoxUserAgent : jsstring :=
  js "Mozilla/5.0 (X11; Linux x86_64; rv:120.0) Gecko/20100101 Firefox/120.0".

Definition instagramAndroidUserAgent : jsstring :=
  js "Mozilla/5.0 (Linux; Android 13; Pixel 7) AppleWebKit/537.36 Chrome/119.0 Mobile Safari/537.36 Instagram 309.0.0.40.113 Android".

Definition examplePostRequest : Request :=
  mkRequest (js "POST")
    (js "https://links.example/go/https%3A%2F%2Fexample.com%2Fpath%3Fa%3D1")
    [(js "Accept", js "*/*");
     (js "user-agent", js "Mozilla/5.0 (X11; Linux x86_64) Firefox/120.0");
     (js "Cookie", js "session=1")]
    (Some (js "payload")).

Definition failingAssets : Env := mkEnv (fun _ => Throw TypeError).

Definition emptyAssets : Env :=
  mkEnv (fun _ => Normal (mkResponse 200 [] (Some []))).

Definition reservedDestination : jsstring :=
  js "https://example.com/search?q=a&b=c#top'" ++ dq ++ [233; 55357; 56832].

Definition quoteDestination : jsstring :=
  js "https://example.com/" ++ dq ++ js "><script>alert(1)</script>".

Definition closingTagDestination : jsstring :=
  js "https://example.com/</script>".

(** ** Reading the script

    The text of the template between [<script>] and the first substitution
    inside the script, the text of the template's script after the second
    substitution, and the end of the document. *)
Definition scriptOpening : jsstring := skipn 68 html_after_href.

Definition scriptClosing : jsstring := firstn 2322 html_tail.

Definition documentEnd : jsstring := skipn 2322 html_tail.

Definition stripPrefix (p s : jsstring) : option jsstring :=
  if startsWith s p then Some (skipn (List.length p) s) else None.

(** A script text that is the template's script around two string
    literals binds [destinationUrl] and [platform] to the values of those
    literals; of any other text nothing is said. *)
Definition readConstants (text : jsstring) : option (jsstring * jsstring) :=
  match stripPrefix scriptOpening text with
  | None => None
  | Some t1 =>
      match evalStringLiteral t1 with
      | None => None
      | Some (destinationUrl, t2) =>
          match stripPrefix html_after_destination t2 with
          | None => None
          | Some t3 =>
              match evalStringLiteral t3 with
              | None => None
              | Some (platform, t4) =>
                  if jsstring_eqb t4 scriptClosing
                  then Some (destinationUrl, platform)
                  else None
              end
          end
      end
  end.

Definition scriptConstants (doc : jsstring) : option (jsstring * jsstring) :=
  match scriptText doc with
  | None => None
  | Some text => readConstants text
  end.


(** The tokens of an ASCII text: units below 128 and octets. *)
Definition asciiToken (t : token) : bool :=
  match t with
  | Unit c => c <? 128
  | Octet b => b <? 256
  end.

(** A string of 16-bit code units in which no surrogate stands alone. *)
Definition wellFormed16 (s : jsstring) : Prop :=
  codeUnits16 s = true /\ isWellFormed s = true.

(** No control character occurs in [s]. *)
Definition printable (s : jsstring) : bool :=
  forallb (fun c => 32 <=? c) s.

(** The code unit [c] does not occur in [s]. *)
Definition without (c : codeUnit) (s : jsstring) : bool :=
  forallb (fun x => negb (x =? c)) s.


Definition ampersandDestination : jsstring :=
  js "https://example.com/search?q=a&b=c#top'x=y>" ++ [13; 10; 233; 55357; 56832].

Definition queryRequestURL : URL :=
  mkURL (js "https://links.example/go/?url=https://example.com")
        (js "/go/") [(js "url", js "https://example.com")].

Definition serializedDestination : URL :=
  mkURL (js "https://example.com/") (js "/") [].

Definition readmeRequestURL : URL :=
  mkURL (js "https://links.example/go/https://twitter.com/you")
        (js "/go/https://twitter.com/you") [].

Definition nestedPrefixURL : URL :=
  mkURL (js "https://links.example/go/https://example.com/go/x")
        (js "/go/https://example.com/go/x") [].

Definition percentRequestURL : URL :=
  mkURL (js "https://links.example/go/https://example.com/50%")
        (js "/go/https://example.com/50%") [].

Definition bareRequest : Request :=
  mkRequest (js "GET")
    (js "https://links.example/go/https%3A%2F%2Fexample.com%2Fpath%3Fa%3D1")
    [(js "Accept", js "*/*")] None.

Definition assetRequest : Request :=
  mkRequest (js "GET") (js "https://example.com/path?a=1")
    [(js "User-Agent", js "Instagram Android")] None.

Definition pageAssets : Env :=
  mkEnv (fun request =>
           Normal (mkResponse 200 [(js "Content-Type", js "text/html")]
                     (Some (req_url request)))).

(** * Properties *)

(** ** The example runtime satisfies the law of the class *)

Lemma latin1Lower_ascii (s : jsstring) :
  forallb isASCII s = true -> map latin1Lower s = map asciiLower s.
Proof.
  induction s as [|c s IH]; simpl; intros Hs; [reflexivity|].
  apply andb_true_iff in Hs as [Hc Hs].
  rewrite (IH Hs). f_equal.
  unfold latin1Lower, asciiLower, isASCII in *.
  apply N.ltb_lt in Hc.
  destruct ((65 <=? c) && (c <=? 90)); [reflexivity|].
  replace (192 <=? c) with false; [reflexivity|].
  symmetry. apply N.leb_gt. lia.
Qed.

#[export] Instance exampleRuntime : JSRuntime := {
  toLowerCase := map latin1Lower;
  toLowerCase_ascii := latin1Lower_ascii;
  URL_new := lookupURL exampleURLs
}.

(** ** String primitives *)

Lemma startsWith_spec (s p : jsstring) :
  startsWith s p = true <-> exists post, s = p ++ post.
Proof.
  revert s. induction p as [|b p IH]; intros s; simpl.
  - split; [intros _; exists s; reflexivity | intros _; destruct s; reflexivity].
  - destruct s as [|a s].
    + split; [discriminate | intros [post E]; discriminate].
    + cbn [startsWith]. rewrite andb_true_iff, N.eqb_eq, IH. split.
      * intros [-> [post ->]]. exists post. reflexivity.
      * intros [post E]. injection E as -> ->. split; [reflexivity|].
        exists post. reflexivity.
Qed.

Lemma includes_spec (s m : jsstring) :
  includes s m = true <-> Contains s m.
Proof.
  unfold Contains. induction s as [|a s IH].
  - cbn [includes]. rewrite orb_false_r, startsWith_spec. split.
    + intros [post E]. exists [], post. exact E.
    + intros [pre [post E]]. destruct pre; [exists post; exact E|discriminate].
  - cbn [includes]. rewrite orb_true_iff, startsWith_spec, IH. split.
    + intros [[post E] | [pre [post E]]].
      * exists [], post. exact E.
      * exists (a :: pre), post. rewrite E. reflexivity.
    + intros [pre [post E]]. destruct pre as [|a' pre].
      * left. exists post. exact E.
      * right. injection E as _ E. exists pre, post. exact E.
Qed.

Lemma includes_false_spec (s m : jsstring) :
  includes s m = false <-> ~ Contains s m.
Proof.
  rewrite <- includes_spec. destruct (includes s m); split; intros; congruence.
Qed.

(** ** Classification *)

Section ClassificationFacts.
Context `{JSRuntime}.

Lemma toLowerCase_empty : toLowerCase [] = [].
Proof. apply (toLowerCase_ascii []). reflexivity. Qed.

(** C1.  The in-app classification is true exactly when the lower-cased
    identification string contains one of the eight fixed markers, and it
    is false for the empty string that stands for an absent header. *)
Theorem isInAppBrowser_markers (userAgent : jsstring) :
  (isInAppBrowser userAgent = true <->
   exists marker,
     In marker [js "instagram"; js "fban"; js "fbav"; js "twitter";
                js "line/"; js "micromessenger"; js "kakao"; js "telegram"]
     /\ Contains (toLowerCase userAgent) marker)
  /\ (isInAppBrowser userAgent = false <->
      forall marker,
        In marker [js "instagram"; js "fban"; js "fbav"; js "twitter";
                   js "line/"; js "micromessenger"; js "kakao"; js "telegram"]
        -> ~ Contains (toLowerCase userAgent) marker)
  /\ isInAppBrowser (orEmpty None) = false.
Proof.
  assert (Ht : isInAppBrowser userAgent = true <->
               exists marker, In marker inAppBrowsers
                              /\ Contains (toLowerCase userAgent) marker).
  { unfold isInAppBrowser. rewrite existsb_exists.
    split; intros [m [Hin Hm]]; exists m; split; try exact Hin;
      apply includes_spec; exact Hm. }
  split; [exact Ht|]. split.
  - split.
    + intros Hf m Hin Hc.
      assert (isInAppBrowser userAgent = true) by (apply Ht; eauto).
      congruence.
    + intros Hn. destruct (isInAppBrowser userAgent) eqn:E; [|reflexivity].
      destruct (proj1 Ht eq_refl) as [m [Hin Hc]]. destruct (Hn m Hin Hc).
  - unfold isInAppBrowser. simpl orEmpty. rewrite toLowerCase_empty.
    reflexivity.
Qed.

(** C4.  The platform is [ios] when the lower-cased string contains
    [iphone] or [ipad], else [android] when it contains [android], else
    [unknown]; the iOS markers win over the Android marker. *)
Theorem getPlatform_cases (userAgent : jsstring) :
  let ua := toLowerCase userAgent in
  (Contains ua (js "iphone") \/ Contains ua (js "ipad") ->
   getPlatform userAgent = js "ios")
  /\ (~ Contains ua (js "iphone") -> ~ Contains ua (js "ipad") ->
      Contains ua (js "android") -> getPlatform userAgent = js "android")
  /\ (~ Contains ua (js "iphone") -> ~ Contains ua (js "ipad") ->
      ~ Contains ua (js "android") -> getPlatform userAgent = js "unknown")
  /\ ((Contains ua (js "iphone") \/ Contains ua (js "ipad")) ->
      Contains ua (js "android") -> getPlatform userAgent = js "ios").
Proof.
  intros ua. unfold getPlatform. fold ua.
  repeat split.
  - intros [Hc | Hc]; apply includes_spec in Hc; rewrite Hc;
      [reflexivity | rewrite orb_true_r; reflexivity].
  - intros H1 H2 H3. apply includes_false_spec in H1, H2.
    apply includes_spec in H3. rewrite H1, H2, H3. reflexivity.
  - intros H1 H2 H3. apply includes_false_spec in H1, H2, H3.
    rewrite H1, H2, H3. reflexivity.
  - intros [Hc | Hc] _; apply includes_spec in Hc; rewrite Hc;
      [reflexivity | rewrite orb_true_r; reflexivity].
Qed.

(** On ASCII identification strings the match is case-insensitive: the
    markers are looked for after the letters A-Z are lowered. *)
Lemma isInAppBrowser_ascii (userAgent : jsstring) :
  forallb isASCII userAgent = true ->
  (isInAppBrowser userAgent = true <->
   exists marker, In marker inAppBrowsers
                  /\ Contains (map asciiLower userAgent) marker).
Proof.
  intros Hascii. rewrite <- (toLowerCase_ascii _ Hascii).
  unfold isInAppBrowser. rewrite existsb_exists.
  split; intros [m [Hin Hm]]; exists m; split; try exact Hin;
    apply includes_spec; exact Hm.
Qed.

End ClassificationFacts.

(** ** Splitting the path *)

Lemma split_from_without_separator (sep s cur : jsstring) :
  includes s sep = false -> split_from sep s 0 cur = [rev cur ++ s].
Proof.
  revert cur. induction s as [|c s IH]; intros cur Hs.
  - simpl. rewrite app_nil_r. reflexivity.
  - cbn [includes] in Hs. apply orb_false_iff in Hs as [Hhere Hlater].
    cbn [split_from]. rewrite Hhere, (IH _ Hlater). simpl rev.
    rewrite <- app_assoc. reflexivity.
Qed.

Lemma split_from_skip (sep pre s cur : jsstring) :
  split_from sep (pre ++ s) (List.length pre) cur = split_from sep s 0 cur.
Proof.
  induction pre as [|c pre IH]; [reflexivity|]. cbn [app List.length split_from].
  exact IH.
Qed.

Lemma split_at_prefix (sep rest : jsstring) :
  sep <> [] -> includes rest sep = false ->
  split (sep ++ rest) sep = [[]; rest].
Proof.
  intros Hsep Hrest. destruct sep as [|c sep]; [congruence|].
  unfold split. cbn [app split_from].
  assert (Hst : startsWith (c :: sep ++ rest) (c :: sep) = true)
    by (apply startsWith_spec; exists rest; reflexivity).
  rewrite Hst. cbn [List.length Nat.pred rev].
  rewrite split_from_skip, (split_from_without_separator _ _ [] Hrest).
  reflexivity.
Qed.

Lemma split_go_prefix (rest : jsstring) :
  includes rest (js "/go/") = false ->
  split (js "/go/" ++ rest) (js "/go/") = [[]; rest].
Proof. apply split_at_prefix. discriminate. Qed.

(** Outside the precondition of the path form: a remainder that holds
    [/go/] again is cut at its first occurrence. *)
Example split_repeated_prefix :
  split (js "/go/https://example.com/go/x") (js "/go/")
  = [[]; js "https://example.com"; js "x"].
Proof. reflexivity. Qed.

(** ** Percent-decoding never yields the empty string from a non-empty one *)

Lemma UTF16EncodeCodePoint_nonempty (cp : N) (s : jsstring) :
  UTF16EncodeCodePoint cp ++ s <> [].
Proof. unfold UTF16EncodeCodePoint. destruct (cp <? 65536); discriminate. Qed.

Lemma bind_Normal_inv {A B : Type} (c : completion A) (k : A -> completion B)
  (b : B) :
  bind c k = Normal b -> exists a, c = Normal a /\ k a = Normal b.
Proof. destruct c as [a|e]; simpl; [eauto | discriminate]. Qed.

Lemma decodeOctets_nonempty (ts : list token) (d : jsstring) :
  ts <> [] -> decodeOctets ts = Normal d -> d <> [].
Proof.
  destruct ts as [|t ts]; [congruence|]. intros _ Hd.
  destruct t as [c|b]; cbn [decodeOctets] in Hd.
  - apply bind_Normal_inv in Hd as [s [_ E]]. injection E as <-. discriminate.
  - repeat match type of Hd with
           | (if ?c then _ else _) = _ => destruct c
           | match ?r with _ => _ end = _ => destruct r
           | bind _ _ = _ => apply bind_Normal_inv in Hd as [s [_ Hd]]
           | Normal _ = Normal _ => injection Hd as <-
           | Throw _ = Normal _ => discriminate Hd
           end;
      try discriminate; try apply UTF16EncodeCodePoint_nonempty.
Qed.

Lemma unescape_nonempty (s : jsstring) (ts : list token) :
  s <> [] -> unescape s = Normal ts -> ts <> [].
Proof.
  destruct s as [|c s]; [congruence|]. intros _ Hs.
  cbn [unescape] in Hs.
  repeat match type of Hs with
         | (if ?c then _ else _) = _ => destruct c
         | match ?r with _ => _ end = _ => destruct r
         | bind _ _ = _ => apply bind_Normal_inv in Hs as [x [_ Hs]]
         | Normal _ = Normal _ => injection Hs as <-
         | Throw _ = Normal _ => discriminate Hs
         end; discriminate.
Qed.

Lemma decodeURIComponent_nonempty (s d : jsstring) :
  s <> [] -> decodeURIComponent s = Normal d -> d <> [].
Proof.
  intros Hs Hd. unfold decodeURIComponent in Hd.
  apply bind_Normal_inv in Hd as [ts [Hts Hd]].
  eapply decodeOctets_nonempty; [|exact Hd].
  eapply unescape_nonempty; eassumption.
Qed.

Lemma truthy_nonempty (d : jsstring) : d <> [] -> truthy (Some d) = true.
Proof. destruct d; [congruence | reflexivity]. Qed.

Lemma orEmpty_Some (d : jsstring) : orEmpty (Some d) = d.
Proof. destruct d; reflexivity. Qed.

(** ** The redirect path *)

Section HandlerFacts.
Context `{JSRuntime}.

Lemma destinationCandidate_path (url : URL) (rest : jsstring) :
  pathname url = js "/go/" ++ rest ->
  includes rest (js "/go/") = false ->
  rest <> [] ->
  destinationCandidate url =
    (d <- decodeURIComponent rest ;; Normal (Some d)).
Proof.
  intros Hp Hrest Hne. unfold destinationCandidate.
  rewrite Hp, (split_go_prefix _ Hrest).
  cbn [List.length Nat.ltb Nat.leb nth_error nth andb].
  rewrite (truthy_nonempty _ Hne). reflexivity.
Qed.

Lemma destinationCandidate_query (url : URL) :
  pathname url = js "/go/" ->
  destinationCandidate url =
    Normal (searchParams_get (searchParams url) (js "url")).
Proof.
  intros Hp. unfold destinationCandidate. rewrite Hp. reflexivity.
Qed.

Lemma handleRedirect_missing (request : Request) (url : URL)
  (userAgent : jsstring) (v : option jsstring) :
  destinationCandidate url = Normal v -> truthy v = false ->
  handleRedirect request url userAgent =
    Normal (mkResponse 400 [(js "Content-Type", js "text/plain")]
              (Some missingDestinationMessage)).
Proof.
  intros Hc Hv. unfold handleRedirect. rewrite Hc. cbn [bind].
  rewrite Hv. reflexivity.
Qed.

Lemma handleRedirect_invalid (request : Request) (url : URL)
  (userAgent d : jsstring) :
  destinationCandidate url = Normal (Some d) -> d <> [] ->
  URL_new d = None ->
  handleRedirect request url userAgent =
    Normal (mkResponse 400 [(js "Content-Type", js "text/plain")]
              (Some invalidDestinationMessage)).
Proof.
  intros Hc Hd Hp. unfold handleRedirect. rewrite Hc. cbn [bind].
  rewrite (truthy_nonempty _ Hd), orEmpty_Some, Hp. reflexivity.
Qed.

Lemma handleRedirect_valid (request : Request) (url parsed : URL)
  (userAgent d : jsstring) :
  destinationCandidate url = Normal (Some d) -> d <> [] ->
  URL_new d = Some parsed ->
  handleRedirect request url userAgent =
    if isInAppBrowser userAgent
    then Normal (mkResponse 200
                   [(js "Content-Type", js "text/html;charset=UTF-8");
                    (js "Cache-Control",
                     js "no-cache, no-store, must-revalidate")]
                   (Some (generateRedirectHTML d (getPlatform userAgent))))
    else Normal (mkResponse 302 [(js "Location", href parsed)] None).
Proof.
  intros Hc Hd Hp. unfold handleRedirect. rewrite Hc. cbn [bind].
  rewrite (truthy_nonempty _ Hd), orEmpty_Some, Hp. cbn [negb].
  destruct (isInAppBrowser userAgent); cbn [negb]; [reflexivity|].
  unfold Response_redirect. rewrite Hp. reflexivity.
Qed.

(** When the destination candidate is obtained without an exception the
    handler returns a response, and that response is a 400 exactly when the
    candidate is missing or does not parse. *)
Lemma handleRedirect_outcomes (request : Request) (url : URL)
  (userAgent : jsstring) (v : option jsstring) :
  destinationCandidate url = Normal v ->
  exists r, handleRedirect request url userAgent = Normal r
            /\ (status r = 400 <->
                truthy v = false \/ URL_new (orEmpty v) = None).
Proof.
  intros Hc. destruct (truthy v) eqn:Hv.
  - destruct v as [[|c d]|]; try discriminate.
    destruct (URL_new (c :: d)) as [parsed|] eqn:Hp.
    + rewrite (handleRedirect_valid request url parsed userAgent (c :: d))
        by (assumption || discriminate).
      destruct (isInAppBrowser userAgent); eexists; (split; [reflexivity|]);
        cbn [status orEmpty]; rewrite Hp;
        (split; [discriminate | intros [?|?]; discriminate]).
    + rewrite (handleRedirect_invalid request url userAgent (c :: d))
        by (assumption || discriminate).
      eexists; split; [reflexivity|]. cbn [status orEmpty].
      split; [intros _; right; exact Hp | reflexivity].
  - rewrite (handleRedirect_missing request url userAgent v Hc Hv).
    eexists; split; [reflexivity|]. cbn [status].
    split; [intros _; left; reflexivity | reflexivity].
Qed.

(** C5.  With a path [/go/rest] whose remainder holds no further [/go/]:
    a non-empty remainder is percent-decoded and is the candidate (a decoded
    remainder is never empty), the query parameter [url] is consulted only
    when the remainder is empty, and a candidate that is absent or empty is
    answered with the missing-destination 400. *)
Theorem destination_extraction (request : Request) (url : URL)
  (userAgent rest : jsstring) :
  pathname url = js "/go/" ++ rest ->
  includes rest (js "/go/") = false ->
  (rest <> [] ->
   destinationCandidate url = (d <- decodeURIComponent rest ;; Normal (Some d))
   /\ forall d, decodeURIComponent rest = Normal d -> truthy (Some d) = true)
  /\ (rest = [] ->
      destinationCandidate url =
        Normal (searchParams_get (searchParams url) (js "url")))
  /\ (forall v, destinationCandidate url = Normal v -> truthy v = false ->
      handleRedirect request url userAgent =
        Normal (mkResponse 400 [(js "Content-Type", js "text/plain")]
                  (Some (js "Missing destination URL. Use /go/https://example.com or /go/?url=https://example.com")))).
Proof.
  intros Hp Hrest. repeat split.
  - apply destinationCandidate_path; assumption.
  - intros d Hd. apply truthy_nonempty.
    eapply decodeURIComponent_nonempty; eassumption.
  - intros ->. apply destinationCandidate_query. rewrite Hp. reflexivity.
  - intros v Hc Hv. eapply handleRedirect_missing; eassumption.
Qed.

(** C6, amended.  A valid destination and a client that is not an in-app
    browser: the answer is the 302 built by [Response.redirect], whose only
    header is [Location] with the destination URL as the URL parser
    serialises it, and which has no body. *)
Theorem direct_redirect (request : Request) (url destination : URL)
  (userAgent destinationUrl : jsstring) :
  destinationCandidate url = Normal (Some destinationUrl) ->
  destinationUrl <> [] ->
  URL_new destinationUrl = Some destination ->
  isInAppBrowser userAgent = false ->
  handleRedirect request url userAgent =
    Normal (mkResponse 302 [(js "Location", href destination)] None).
Proof.
  intros Hc Hd Hp Hua.
  rewrite (handleRedirect_valid request url destination userAgent
             destinationUrl Hc Hd Hp), Hua.
  reflexivity.
Qed.

(** C9.  A valid destination and an in-app client: status 200, the two
    headers, and the interstitial document for the destination and the
    platform as body. *)
Theorem interstitial_response (request : Request) (url destination : URL)
  (userAgent destinationUrl : jsstring) :
  destinationCandidate url = Normal (Some destinationUrl) ->
  destinationUrl <> [] ->
  URL_new destinationUrl = Some destination ->
  isInAppBrowser userAgent = true ->
  exists r,
    handleRedirect request url userAgent = Normal r
    /\ status r = 200
    /\ Headers_get (headers r) (js "Content-Type")
       = Some (js "text/html;charset=UTF-8")
    /\ Headers_get (headers r) (js "Cache-Control")
       = Some (js "no-cache, no-store, must-revalidate")
    /\ List.length (headers r) = 2%nat
    /\ body r
       = Some (generateRedirectHTML destinationUrl (getPlatform userAgent)).
Proof.
  intros Hc Hd Hp Hua.
  rewrite (handleRedirect_valid request url destination userAgent
             destinationUrl Hc Hd Hp), Hua.
  eexists. split; [reflexivity|]. cbn [status headers body].
  repeat split; reflexivity.
Qed.

(** C10.  On the redirect path the answer is a function of the request URL
    and of the value of the [user-agent] header alone. *)
Theorem fetch_reads_url_and_user_agent_only (r1 r2 : Request)
  (env1 env2 : Env) (ctx1 ctx2 : ExecutionContext) (url : URL) :
  req_url r1 = req_url r2 ->
  Headers_get (req_headers r1) (js "user-agent")
  = Headers_get (req_headers r2) (js "user-agent") ->
  URL_new (req_url r1) = Some url ->
  startsWith (pathname url) (js "/go/") = true ->
  fetch r1 env1 ctx1 = fetch r2 env2 ctx2.
Proof.
  intros Hurl Hua Hparse Hgo. unfold fetch.
  rewrite <- Hurl, <- Hua, Hparse, Hgo. reflexivity.
Qed.

End HandlerFacts.

(** ** Percent-encoding and decoding *)

Ltac Zify.zify_post_hook ::= Z.to_euclidean_division_equations.

Ltac compare_cases :=
  repeat (match goal with
          | |- context [?a <=? ?b] => destruct (N.leb_spec a b)
          | |- context [?a <? ?b] => destruct (N.ltb_spec a b)
          | |- context [?a =? ?b] => destruct (N.eqb_spec a b)
          end; cbn [andb orb negb]; try lia).

(** Induction on a string read one or two code units at a time. *)
Lemma jsstring_pair_ind (P : jsstring -> Prop) :
  P [] ->
  (forall c r, P r -> (forall c2 r2, r = c2 :: r2 -> P r2) -> P (c :: r)) ->
  forall s, P s.
Proof.
  intros Hnil Hstep s.
  enough (Hboth : P s /\ forall c, P (c :: s)) by apply Hboth.
  induction s as [|a s [IHs IHcons]].
  - split; [exact Hnil|]. intros c. apply Hstep; [exact Hnil | discriminate].
  - split; [apply IHcons|]. intros c. apply Hstep; [apply IHcons|].
    intros c2 r2 E. injection E as <- <-. exact IHs.
Qed.

Lemma hexValue_hexDigit (n : N) : n < 16 -> hexValue (hexDigit n) = Some n.
Proof.
  intros Hn. unfold hexValue, hexDigit.
  destruct (N.ltb_spec n 10); compare_cases; f_equal; lia.
Qed.

Lemma unescape_pct (b : N) (s : jsstring) :
  b < 256 ->
  unescape (pct b ++ s) = (ts <- unescape s ;; Normal (Octet b :: ts)).
Proof.
  intros Hb. unfold pct. cbn [app unescape].
  change (37 =? 37) with true. cbv iota.
  rewrite !hexValue_hexDigit by lia.
  replace (16 * (b / 16) + b mod 16) with b by lia. reflexivity.
Qed.

Lemma utf8_octets (cp : N) : cp < 2097152 -> Forall (fun b => b < 256) (utf8 cp).
Proof.
  intros Hcp. unfold utf8.
  destruct (N.ltb_spec cp 128); [|destruct (N.ltb_spec cp 2048);
    [|destruct (N.ltb_spec cp 65536)]];
    repeat constructor; lia.
Qed.

Lemma unescape_octets (bs : list N) (s : jsstring) (ts : list token) :
  Forall (fun b => b < 256) bs ->
  unescape s = Normal ts ->
  unescape (flat_map pct bs ++ s) = Normal (map Octet bs ++ ts).
Proof.
  intros Hbs Hs. induction Hbs as [|b bs Hb _ IH]; [exact Hs|].
  cbn [flat_map map]. rewrite <- !app_assoc, (unescape_pct _ _ Hb), IH.
  reflexivity.
Qed.

Lemma UTF16EncodeCodePoint_bmp (cp : N) :
  cp < 65536 -> UTF16EncodeCodePoint cp = [cp].
Proof.
  intros Hcp. unfold UTF16EncodeCodePoint.
  destruct (N.ltb_spec cp 65536); [reflexivity | lia].
Qed.

Lemma decodeOctets_1 (b : N) (r : list token) :
  b < 128 ->
  decodeOctets (Octet b :: r) = (s <- decodeOctets r ;; Normal (b :: s)).
Proof.
  intros Hb. cbn [decodeOctets]. destruct (N.ltb_spec b 128); [reflexivity | lia].
Qed.

Lemma decodeOctets_2 (b b2 : N) (r : list token) :
  192 <= b < 224 -> 128 <= b2 <= 191 -> 128 <= (b - 192) * 64 + (b2 - 128) ->
  decodeOctets (Octet b :: Octet b2 :: r)
  = (s <- decodeOctets r ;;
     Normal (UTF16EncodeCodePoint ((b - 192) * 64 + (b2 - 128)) ++ s)).
Proof.
  intros Hb Hb2 Hcp. cbn [decodeOctets]. unfold isCont.
  destruct (N.ltb_spec b 128); [lia|]. destruct (N.ltb_spec b 192); [lia|].
  destruct (N.ltb_spec b 224); [|lia].
  destruct (N.leb_spec 128 b2); [|lia]. destruct (N.leb_spec b2 191); [|lia].
  destruct (N.leb_spec 128 ((b - 192) * 64 + (b2 - 128))); [|lia].
  reflexivity.
Qed.

Lemma decodeOctets_3 (b b2 b3 : N) (r : list token) :
  224 <= b < 240 -> 128 <= b2 <= 191 -> 128 <= b3 <= 191 ->
  2048 <= (b - 224) * 4096 + (b2 - 128) * 64 + (b3 - 128) ->
  isSurrogate ((b - 224) * 4096 + (b2 - 128) * 64 + (b3 - 128)) = false ->
  decodeOctets (Octet b :: Octet b2 :: Octet b3 :: r)
  = (s <- decodeOctets r ;;
     Normal (UTF16EncodeCodePoint
               ((b - 224) * 4096 + (b2 - 128) * 64 + (b3 - 128)) ++ s)).
Proof.
  intros Hb Hb2 Hb3 Hcp Hsur. cbn [decodeOctets]. unfold isCont.
  rewrite Hsur.
  destruct (N.ltb_spec b 128); [lia|]. destruct (N.ltb_spec b 192); [lia|].
  destruct (N.ltb_spec b 224); [lia|]. destruct (N.ltb_spec b 240); [|lia].
  destruct (N.leb_spec 128 b2); [|lia]. destruct (N.leb_spec b2 191); [|lia].
  destruct (N.leb_spec 128 b3); [|lia]. destruct (N.leb_spec b3 191); [|lia].
  destruct (N.leb_spec 2048 ((b - 224) * 4096 + (b2 - 128) * 64 + (b3 - 128)));
    [|lia].
  reflexivity.
Qed.

Lemma decodeOctets_4 (b b2 b3 b4 : N) (r : list token) :
  240 <= b < 248 -> 128 <= b2 <= 191 -> 128 <= b3 <= 191 -> 128 <= b4 <= 191 ->
  65536 <= (b - 240) * 262144 + (b2 - 128) * 4096 + (b3 - 128) * 64 + (b4 - 128)
           <= 1114111 ->
  decodeOctets (Octet b :: Octet b2 :: Octet b3 :: Octet b4 :: r)
  = (s <- decodeOctets r ;;
     Normal (UTF16EncodeCodePoint
               ((b - 240) * 262144 + (b2 - 128) * 4096 + (b3 - 128) * 64
                + (b4 - 128)) ++ s)).
Proof.
  intros Hb Hb2 Hb3 Hb4 Hcp. cbn [decodeOctets]. unfold isCont.
  destruct (N.ltb_spec b 128); [lia|]. destruct (N.ltb_spec b 192); [lia|].
  destruct (N.ltb_spec b 224); [lia|]. destruct (N.ltb_spec b 240); [lia|].
  destruct (N.ltb_spec b 248); [|lia].
  destruct (N.leb_spec 128 b2); [|lia]. destruct (N.leb_spec b2 191); [|lia].
  destruct (N.leb_spec 128 b3); [|lia]. destruct (N.leb_spec b3 191); [|lia].
  destruct (N.leb_spec 128 b4); [|lia]. destruct (N.leb_spec b4 191); [|lia].
  destruct (N.leb_spec 65536
              ((b - 240) * 262144 + (b2 - 128) * 4096 + (b3 - 128) * 64
               + (b4 - 128))); [|lia].
  destruct (N.leb_spec
              ((b - 240) * 262144 + (b2 - 128) * 4096 + (b3 - 128) * 64
               + (b4 - 128)) 1114111); [|lia].
  reflexivity.
Qed.

Lemma decodeOctets_utf8 (cp : N) (ts : list token) (s : jsstring) :
  isScalar cp = true ->
  decodeOctets ts = Normal s ->
  decodeOctets (map Octet (utf8 cp) ++ ts)
  = Normal (UTF16EncodeCodePoint cp ++ s).
Proof.
  unfold isScalar. intros Hcp Hts.
  apply andb_true_iff in Hcp as [Hmax Hsur].
  apply N.leb_le in Hmax. apply negb_true_iff in Hsur.
  assert (Hns : cp < 55296 \/ 57343 < cp).
  { unfold isSurrogate in Hsur.
    destruct (N.leb_spec 55296 cp), (N.leb_spec cp 57343);
      try discriminate; lia. }
  unfold utf8.
  destruct (N.ltb_spec cp 128) as [H1|H1];
    [|destruct (N.ltb_spec cp 2048) as [H2|H2];
      [|destruct (N.ltb_spec cp 65536) as [H3|H3]]];
    cbn [map app].
  - rewrite decodeOctets_1, Hts, UTF16EncodeCodePoint_bmp by lia. reflexivity.
  - rewrite decodeOctets_2 by lia.
    replace ((192 + cp / 64 - 192) * 64 + (128 + cp mod 64 - 128)) with cp
      by lia.
    rewrite Hts. reflexivity.
  - assert (E : (224 + cp / 4096 - 224) * 4096
                + (128 + (cp / 64) mod 64 - 128) * 64
                + (128 + cp mod 64 - 128) = cp) by lia.
    rewrite decodeOctets_3 by (rewrite ?E; (assumption || lia)).
    rewrite E, Hts. reflexivity.
  - assert (E : (240 + cp / 262144 - 240) * 262144
                + (128 + (cp / 4096) mod 64 - 128) * 4096
                + (128 + (cp / 64) mod 64 - 128) * 64
                + (128 + cp mod 64 - 128) = cp) by lia.
    rewrite decodeOctets_4 by (rewrite ?E; lia).
    rewrite E, Hts. reflexivity.
Qed.

Lemma isUnescaped_bounds (c : codeUnit) :
  isUnescaped c = true -> 33 <= c /\ c <= 126 /\ c <> 37 /\ c <> 47.
Proof.
  unfold isUnescaped. cbn [existsb]. intros Hc.
  repeat split; try (intros ->; discriminate Hc).
  - destruct (N.leb_spec 33 c); [assumption|].
    revert Hc. compare_cases.
  - destruct (N.leb_spec c 126); [assumption|].
    revert Hc. compare_cases.
Qed.

Lemma pairCodePoint_scalar (c c2 : codeUnit) :
  isLead c = true -> isTrail c2 = true ->
  isScalar (pairCodePoint c c2) = true
  /\ pairCodePoint c c2 < 2097152
  /\ UTF16EncodeCodePoint (pairCodePoint c c2) = [c; c2].
Proof.
  unfold isLead, isTrail, isScalar, isSurrogate, pairCodePoint,
    UTF16EncodeCodePoint.
  intros Hc Hc2.
  apply andb_true_iff in Hc as [Hc Hc']. apply andb_true_iff in Hc2 as [Hd Hd'].
  apply N.leb_le in Hc, Hc', Hd, Hd'.
  repeat split.
  - compare_cases.
  - lia.
  - destruct (N.ltb_spec (65536 + (c - 55296) * 1024 + (c2 - 56320)) 65536);
      [lia|].
    f_equal; [lia|]. f_equal. lia.
Qed.

Lemma bmp_scalar (c : codeUnit) :
  c < 65536 -> isLead c = false -> isTrail c = false ->
  isScalar c = true /\ c < 2097152 /\ UTF16EncodeCodePoint c = [c].
Proof.
  unfold isLead, isTrail, isScalar, isSurrogate. intros Hc Hl Ht.
  repeat split.
  - revert Hl Ht. compare_cases; discriminate.
  - lia.
  - apply UTF16EncodeCodePoint_bmp. exact Hc.
Qed.

Lemma encode_decode_tokens (d : jsstring) :
  codeUnits16 d = true ->
  forall enc, encodeURIComponent d = Normal enc ->
  exists ts, unescape enc = Normal ts /\ decodeOctets ts = Normal d.
Proof.
  induction d as [|c r IHr IHr2] using jsstring_pair_ind; intros Hd enc Henc.
  - injection Henc as <-. exists []. split; reflexivity.
  - cbn [codeUnits16 forallb] in Hd. apply andb_true_iff in Hd as [Hc Hr].
    apply N.ltb_lt in Hc. cbn [encodeURIComponent] in Henc.
    destruct (isUnescaped c) eqn:Hu.
    { apply bind_Normal_inv in Henc as [e [He Henc]]. injection Henc as <-.
      destruct (IHr Hr e He) as [ts [Hts Hdec]].
      exists (Unit c :: ts). cbn [unescape decodeOctets].
      destruct (isUnescaped_bounds c Hu) as [_ [_ [H37 _]]].
      destruct (N.eqb_spec c 37); [contradiction|].
      rewrite Hts, Hdec. split; reflexivity. }
    destruct (isLead c) eqn:Hl.
    { destruct r as [|c2 r2]; [discriminate|].
      destruct (isTrail c2) eqn:Ht; [|discriminate].
      apply bind_Normal_inv in Henc as [e [He Henc]]. injection Henc as <-.
      cbn [codeUnits16 forallb] in Hr. apply andb_true_iff in Hr as [_ Hr2].
      destruct (IHr2 c2 r2 eq_refl Hr2 e He) as [ts [Hts Hdec]].
      destruct (pairCodePoint_scalar c c2 Hl Ht) as [Hs [Hb Hp]].
      exists (map Octet (utf8 (pairCodePoint c c2)) ++ ts). split.
      - apply unescape_octets; [apply utf8_octets; exact Hb | exact Hts].
      - rewrite (decodeOctets_utf8 _ _ _ Hs Hdec), Hp. reflexivity. }
    destruct (isTrail c) eqn:Ht; [discriminate|].
    apply bind_Normal_inv in Henc as [e [He Henc]]. injection Henc as <-.
    destruct (IHr Hr e He) as [ts [Hts Hdec]].
    destruct (bmp_scalar c Hc Hl Ht) as [Hs [Hb Hp]].
    exists (map Octet (utf8 c) ++ ts). split.
    + apply unescape_octets; [apply utf8_octets; exact Hb | exact Hts].
    + rewrite (decodeOctets_utf8 _ _ _ Hs Hdec), Hp. reflexivity.
Qed.

Lemma decode_encode (d enc : jsstring) :
  codeUnits16 d = true ->
  encodeURIComponent d = Normal enc ->
  decodeURIComponent enc = Normal d.
Proof.
  intros Hd Henc. destruct (encode_decode_tokens d Hd enc Henc) as [ts [Hts Hdec]].
  unfold decodeURIComponent. rewrite Hts. exact Hdec.
Qed.

Lemma hexDigit_not_slash (n : N) : hexDigit n <> 47.
Proof. unfold hexDigit. destruct (n <? 10); lia. Qed.

Lemma pct_chars (bs : list N) :
  Forall (fun c => c <> 47) (flat_map pct bs) /\ (bs <> [] -> flat_map pct bs <> []).
Proof.
  split.
  - induction bs as [|b bs IH]; [constructor|]. cbn [flat_map pct app].
    repeat constructor; try apply hexDigit_not_slash; [discriminate | exact IH].
  - destruct bs; [congruence | discriminate].
Qed.

Lemma utf8_nonempty (cp : N) : utf8 cp <> [].
Proof.
  unfold utf8.
  destruct (cp <? 128); [discriminate|]. destruct (cp <? 2048); [discriminate|].
  destruct (cp <? 65536); discriminate.
Qed.

Lemma encode_chars (d : jsstring) :
  forall enc, encodeURIComponent d = Normal enc ->
  Forall (fun c => c <> 47) enc /\ (d <> [] -> enc <> []).
Proof.
  induction d as [|c r IHr IHr2] using jsstring_pair_ind; intros enc Henc.
  - injection Henc as <-. split; [constructor | congruence].
  - cbn [encodeURIComponent] in Henc.
    destruct (isUnescaped c) eqn:Hu.
    { apply bind_Normal_inv in Henc as [e [He Henc]]. injection Henc as <-.
      split; [|discriminate]. constructor; [|apply (IHr e He)].
      apply (isUnescaped_bounds c Hu). }
    destruct (isLead c) eqn:Hl.
    { destruct r as [|c2 r2]; [discriminate|].
      destruct (isTrail c2) eqn:Ht; [|discriminate].
      apply bind_Normal_inv in Henc as [e [He Henc]]. injection Henc as <-.
      split.
      - apply Forall_app. split; [apply pct_chars | apply (IHr2 c2 r2 eq_refl e He)].
      - intros _ E. apply app_eq_nil in E as [E _].
        exact (proj2 (pct_chars _) (utf8_nonempty _) E). }
    destruct (isTrail c) eqn:Ht; [discriminate|].
    apply bind_Normal_inv in Henc as [e [He Henc]]. injection Henc as <-.
    split.
    + apply Forall_app. split; [apply pct_chars | apply (IHr e He)].
    + intros _ E. apply app_eq_nil in E as [E _].
      exact (proj2 (pct_chars _) (utf8_nonempty _) E).
Qed.

Lemma encodeURIComponent_total (d : jsstring) :
  isWellFormed d = true -> exists enc, encodeURIComponent d = Normal enc.
Proof.
  induction d as [|c r IHr IHr2] using jsstring_pair_ind; intros Hw.
  - exists []. reflexivity.
  - cbn [encodeURIComponent isWellFormed] in *.
    destruct (isLead c) eqn:Hl.
    + destruct r as [|c2 r2]; [discriminate|].
      apply andb_true_iff in Hw as [Ht Hw2]. rewrite Ht.
      destruct (IHr2 c2 r2 eq_refl Hw2) as [e He].
      destruct (isUnescaped c) eqn:Hu.
      * exfalso. apply isUnescaped_bounds in Hu.
        unfold isLead in Hl. apply andb_true_iff in Hl as [Hl _].
        apply N.leb_le in Hl. lia.
      * rewrite He. eexists. reflexivity.
    + apply andb_true_iff in Hw as [Ht Hw]. apply negb_true_iff in Ht.
      rewrite Ht. destruct (IHr Hw) as [e He]. rewrite He.
      destruct (isUnescaped c); eexists; reflexivity.
Qed.

Lemma includes_without_char (a : codeUnit) (m s : jsstring) :
  Forall (fun c => c <> a) s -> includes s (a :: m) = false.
Proof.
  induction 1 as [|c s Hc _ IH]; [reflexivity|].
  cbn [includes startsWith]. rewrite IH.
  destruct (N.eqb_spec c a); [contradiction | reflexivity].
Qed.

(** C7.  A destination that is percent-encoded with [encodeURIComponent]
    and appended to [/go/] is recovered exactly by the path-based
    extraction, whatever characters it contains; the encoder accepts every
    string in which no surrogate stands alone. *)
Theorem path_round_trip (destinationUrl h : jsstring)
  (q : list (jsstring * jsstring)) :
  codeUnits16 destinationUrl = true ->
  isWellFormed destinationUrl = true ->
  destinationUrl <> [] ->
  exists encoded,
    encodeURIComponent destinationUrl = Normal encoded
    /\ destinationCandidate (mkURL h (js "/go/" ++ encoded) q)
       = Normal (Some destinationUrl).
Proof.
  intros H16 Hw Hne.
  destruct (encodeURIComponent_total _ Hw) as [enc Henc].
  exists enc. split; [exact Henc|].
  destruct (encode_chars _ _ Henc) as [Hchars Hnonempty].
  rewrite (destinationCandidate_path (mkURL h (js "/go/" ++ enc) q) enc eq_refl
             (includes_without_char 47 _ _ Hchars) (Hnonempty Hne)).
  rewrite (decode_encode _ _ H16 Henc). reflexivity.
Qed.

(** ** The script's constants *)

Lemma hexValue_lowerHexDigit (n : N) :
  n < 16 -> hexValue (lowerHexDigit n) = Some n.
Proof.
  intros Hn. unfold hexValue, lowerHexDigit.
  destruct (N.ltb_spec n 10); compare_cases; f_equal; lia.
Qed.

Lemma literalChars_UnicodeEscape (c : codeUnit) (s : jsstring) :
  c < 65536 ->
  literalChars (UnicodeEscape c ++ s) = consValue c (literalChars s).
Proof.
  intros Hc. unfold UnicodeEscape, backslash. cbn [app literalChars].
  change (92 =? 34) with false. change (92 =? 92) with true.
  change (117 =? 117) with true. cbv iota.
  unfold hex4Value. rewrite !hexValue_lowerHexDigit by lia.
  replace (4096 * (c / 4096) + 256 * ((c / 256) mod 16)
           + 16 * ((c / 16) mod 16) + c mod 16) with c by lia.
  reflexivity.
Qed.

Lemma literalChars_plain (c : codeUnit) (s : jsstring) :
  32 <= c -> c <> 34 -> c <> 92 ->
  literalChars (c :: s) = consValue c (literalChars s).
Proof.
  intros H32 H34 H92. cbn [literalChars].
  destruct (N.eqb_spec c 34); [contradiction|].
  destruct (N.eqb_spec c 92); [contradiction|].
  destruct (N.ltb_spec c 32); [lia | reflexivity].
Qed.

Lemma literalChars_quoteCodeUnit (c : codeUnit) (s : jsstring) :
  c < 65536 ->
  literalChars (quoteCodeUnit c ++ s) = consValue c (literalChars s).
Proof.
  intros Hc. unfold quoteCodeUnit.
  destruct (N.eqb_spec c 8) as [->|]; [reflexivity|].
  destruct (N.eqb_spec c 9) as [->|]; [reflexivity|].
  destruct (N.eqb_spec c 10) as [->|]; [reflexivity|].
  destruct (N.eqb_spec c 12) as [->|]; [reflexivity|].
  destruct (N.eqb_spec c 13) as [->|]; [reflexivity|].
  destruct (N.eqb_spec c 34) as [->|]; [reflexivity|].
  destruct (N.eqb_spec c 92) as [->|]; [reflexivity|].
  destruct (N.ltb_spec c 32); cbn [orb].
  - apply literalChars_UnicodeEscape. exact Hc.
  - destruct (isSurrogate c).
    + apply literalChars_UnicodeEscape. exact Hc.
    + apply literalChars_plain; assumption.
Qed.

Lemma surrogate_plain (c : codeUnit) :
  isLead c = true \/ isTrail c = true -> 32 <= c /\ c <> 34 /\ c <> 92.
Proof.
  unfold isLead, isTrail.
  intros [Hc | Hc]; apply andb_true_iff in Hc as [Hc _];
    apply N.leb_le in Hc; lia.
Qed.

Lemma literalChars_quoteChars (s rest : jsstring) :
  codeUnits16 s = true ->
  literalChars (quoteChars s ++ dq ++ rest) = Some (s, rest).
Proof.
  induction s as [|c r IHr IHr2] using jsstring_pair_ind; intros Hs.
  - reflexivity.
  - cbn [codeUnits16 forallb] in Hs. apply andb_true_iff in Hs as [Hc Hr].
    apply N.ltb_lt in Hc. cbn [quoteChars].
    destruct (isLead c) eqn:Hl.
    + destruct r as [|c2 r2].
      * rewrite (literalChars_UnicodeEscape c _ Hc). reflexivity.
      * destruct (isTrail c2) eqn:Ht.
        -- cbn [codeUnits16 forallb] in Hr.
           apply andb_true_iff in Hr as [_ Hr2].
           destruct (surrogate_plain c (or_introl Hl)) as [? [? ?]].
           destruct (surrogate_plain c2 (or_intror Ht)) as [? [? ?]].
           cbn [app]. rewrite !literalChars_plain by assumption.
           rewrite (IHr2 c2 r2 eq_refl Hr2). reflexivity.
        -- rewrite <- app_assoc, (literalChars_UnicodeEscape c _ Hc), (IHr Hr).
           reflexivity.
    + rewrite <- app_assoc, (literalChars_quoteCodeUnit c _ Hc), (IHr Hr).
      reflexivity.
Qed.

(** The literal written by [JSON.stringify] evaluates to the string it was
    made from. *)
Lemma evalStringLiteral_JSON_stringify (s rest : jsstring) :
  codeUnits16 s = true ->
  evalStringLiteral (JSON_stringify s ++ rest) = Some (s, rest).
Proof.
  intros Hs. unfold JSON_stringify, dq at 1. cbn [app evalStringLiteral].
  change (34 =? 34) with true. cbv iota.
  rewrite <- app_assoc. apply literalChars_quoteChars. exact Hs.
Qed.



(** ** The destination inside the document *)

(** C2.  The destination is copied into the [href] attribute as it is, and
    the literal written by [JSON.stringify] is placed in a script element
    as it is.  A destination with a quotation mark ends the attribute
    early, and what follows it is read as markup: the first script element
    of the document is then the one carried by the destination.  A
    destination with [</script>] ends the script element inside the
    literal, which is left without its closing quotation mark. *)
Theorem embedded_destination_breaks_document (platform h : jsstring)
  (q : list (jsstring * jsstring)) :
  destinationCandidate
    (mkURL h (js "/go/https%3A%2F%2Fexample.com%2F%22%3E%3Cscript%3Ealert(1)%3C%2Fscript%3E") q)
  = Normal (Some quoteDestination)
  /\ manualLinkHref (generateRedirectHTML quoteDestination platform)
     = Some (js "https://example.com/")
  /\ scriptText (generateRedirectHTML quoteDestination platform)
     = Some (js "alert(1)")
  /\ exists text literal,
       scriptText (generateRedirectHTML closingTagDestination platform)
       = Some text
       /\ afterFirst (js "const destinationUrl = ") text = Some literal
       /\ literal = dq ++ js "https://example.com/"
       /\ evalStringLiteral literal = None.
Proof.
  split; [vm_compute; reflexivity|].
  split; [vm_compute; reflexivity|].
  split; [vm_compute; reflexivity|].
  eexists. eexists.
  split; [vm_compute; reflexivity|].
  split; [vm_compute; reflexivity|].
  split; vm_compute; reflexivity.
Qed.

(** ** Exceptions on the redirect path *)

Section RedirectFailures.
Context `{JSRuntime}.

(** C3.  A path remainder with a malformed percent escape makes
    [decodeURIComponent] throw [URIError]; nothing catches it, so the
    handler ends with that exception instead of a response. *)
Theorem malformed_escape_throws (request : Request) (h userAgent : jsstring)
  (q : list (jsstring * jsstring)) :
  decodeURIComponent (js "https://example.com/100%") = Throw URIError
  /\ handleRedirect request
       (mkURL h (js "/go/https://example.com/100%") q) userAgent
     = Throw URIError
  /\ handleRedirect request
       (mkURL h (js "/go/caf%E9") q) userAgent
     = Throw URIError.
Proof.
  split; [vm_compute; reflexivity|].
  split; unfold handleRedirect.
  - replace (destinationCandidate
               (mkURL h (js "/go/https://example.com/100%") q))
      with (@Throw (option jsstring) URIError)
      by (vm_compute; reflexivity).
    reflexivity.
  - replace (destinationCandidate (mkURL h (js "/go/caf%E9") q))
      with (@Throw (option jsstring) URIError)
      by (vm_compute; reflexivity).
    reflexivity.
Qed.

End RedirectFailures.

(** ** The Android escape *)



(** ** The handler on concrete requests *)

Lemma destination_extraction_witness :
  pathname exampleRequestURL
  = js "/go/" ++ js "https%3A%2F%2Fexample.com%2Fpath%3Fa%3D1"
  /\ includes (js "https%3A%2F%2Fexample.com%2Fpath%3Fa%3D1") (js "/go/")
     = false
  /\ destinationCandidate exampleRequestURL
     = Normal (Some (js "https://example.com/path?a=1")).
Proof.
  split; [reflexivity|]. split; [reflexivity|].
  destruct (destination_extraction exampleRequest exampleRequestURL
              firefoxUserAgent (js "https%3A%2F%2Fexample.com%2Fpath%3Fa%3D1")
              eq_refl eq_refl) as [Hpath _].
  destruct Hpath as [Hcandidate _]; [discriminate|].
  rewrite Hcandidate. vm_compute. reflexivity.
Defined.

Lemma direct_redirect_witness :
  isInAppBrowser firefoxUserAgent = false
  /\ URL_new (js "https://example.com") = Some serializedDestination
  /\ handleRedirect exampleRequest queryRequestURL firefoxUserAgent
     = Normal (mkResponse 302 [(js "Location", js "https://example.com/")]
                 None).
Proof.
  split; [vm_compute; reflexivity|]. split; [vm_compute; reflexivity|].
  apply (direct_redirect exampleRequest queryRequestURL serializedDestination
           firefoxUserAgent (js "https://example.com")).
  - vm_compute. reflexivity.
  - discriminate.
  - vm_compute. reflexivity.
  - vm_compute. reflexivity.
Defined.

(** C6, as stated, fails: for the destination [https://example.com] of the
    specification's own example the [Location] header is not that string
    but its serialization, with the path added by the URL parser. *)
Lemma location_is_not_the_destination_string :
  destinationCandidate queryRequestURL
  = Normal (Some (js "https://example.com"))
  /\ URL_new (js "https://example.com") = Some serializedDestination
  /\ isInAppBrowser firefoxUserAgent = false
  /\ exists r,
       handleRedirect exampleRequest queryRequestURL firefoxUserAgent
       = Normal r
       /\ status r = 302
       /\ Headers_get (headers r) (js "Location")
          = Some (js "https://example.com/")
       /\ Headers_get (headers r) (js "Location")
          <> Some (js "https://example.com").
Proof.
  split; [vm_compute; reflexivity|]. split; [vm_compute; reflexivity|].
  split; [vm_compute; reflexivity|].
  eexists. split; [vm_compute; reflexivity|].
  split; [reflexivity|]. split; [vm_compute; reflexivity|].
  vm_compute. discriminate.
Qed.

Lemma interstitial_response_witness :
  isInAppBrowser instagramAndroidUserAgent = true
  /\ getPlatform instagramAndroidUserAgent = js "android"
  /\ exists r,
       handleRedirect exampleRequest exampleRequestURL
         instagramAndroidUserAgent = Normal r
       /\ status r = 200
       /\ Headers_get (headers r) (js "Content-Type")
          = Some (js "text/html;charset=UTF-8")
       /\ Headers_get (headers r) (js "Cache-Control")
          = Some (js "no-cache, no-store, must-revalidate")
       /\ List.length (headers r) = 2%nat
       /\ body r
          = Some (generateRedirectHTML (js "https://example.com/path?a=1")
                    (getPlatform instagramAndroidUserAgent)).
Proof.
  split; [vm_compute; reflexivity|]. split; [vm_compute; reflexivity|].
  apply (interstitial_response exampleRequest exampleRequestURL
           exampleDestination instagramAndroidUserAgent
           (js "https://example.com/path?a=1")).
  - vm_compute. reflexivity.
  - discriminate.
  - vm_compute. reflexivity.
  - vm_compute. reflexivity.
Defined.

Lemma fetch_reads_url_and_user_agent_only_witness :
  req_method exampleRequest <> req_method examplePostRequest
  /\ req_body exampleRequest <> req_body examplePostRequest
  /\ fetch exampleRequest failingAssets executionContext
     = fetch examplePostRequest emptyAssets executionContext.
Proof.
  split; [discriminate|]. split; [discriminate|].
  apply (fetch_reads_url_and_user_agent_only exampleRequest examplePostRequest
           failingAssets emptyAssets executionContext executionContext
           exampleRequestURL).
  - reflexivity.
  - vm_compute. reflexivity.
  - vm_compute. reflexivity.
  - vm_compute. reflexivity.
Defined.

Lemma path_round_trip_witness :
  exists encoded,
    encodeURIComponent reservedDestination = Normal encoded
    /\ destinationCandidate (mkURL [] (js "/go/" ++ encoded) [])
       = Normal (Some reservedDestination).
Proof.
  apply (path_round_trip reservedDestination [] []).
  - vm_compute. reflexivity.
  - vm_compute. reflexivity.
  - discriminate.
Defined.


(** The examples of the specification, run on the example runtime. *)

Example decoded_path_destination :
  destinationCandidate exampleRequestURL
  = Normal (Some (js "https://example.com/path?a=1")).
Proof. vm_compute. reflexivity. Qed.

Example query_destination :
  destinationCandidate
    (mkURL (js "https://links.example/go/?url=https://example.com")
       (js "/go/") [(js "url", js "https://example.com")])
  = Normal (Some (js "https://example.com")).
Proof. vm_compute. reflexivity. Qed.

Example missing_destination :
  fetch (mkRequest (js "GET") (js "https://links.example/go/") [] None)
    emptyAssets executionContext
  = Normal (mkResponse 400 [(js "Content-Type", js "text/plain")]
              (Some missingDestinationMessage)).
Proof. vm_compute. reflexivity. Qed.

Example invalid_destination :
  fetch (mkRequest (js "GET") (js "https://links.example/go/not-a-url") []
           None)
    emptyAssets executionContext
  = Normal (mkResponse 400 [(js "Content-Type", js "text/plain")]
              (Some invalidDestinationMessage)).
Proof. vm_compute. reflexivity. Qed.

Example redirect_is_serialized :
  fetch (mkRequest (js "GET")
           (js "https://links.example/go/?url=https://example.com") [] None)
    emptyAssets executionContext
  = Normal (mkResponse 302 [(js "Location", js "https://example.com/")] None).
Proof. vm_compute. reflexivity. Qed.

Example mixed_case_marker :
  isInAppBrowser (js "Mozilla/5.0 (iPhone; CPU iPhone OS 17_0) FBAN/FBIOS") = true
  /\ getPlatform (js "Mozilla/5.0 (iPhone; CPU iPhone OS 17_0) FBAN/FBIOS")
     = js "ios"
  /\ getPlatform (js "Android iPad") = js "ios"
  /\ isInAppBrowser (js "Mozilla/5.0 TikTok") = false.
Proof. vm_compute. repeat split. Qed.

(** * Further properties of the worker *)

(** ** Exceptions and statuses *)

Lemma length_induction {A : Type} (P : list A -> Prop) :
  (forall s, (forall t, (List.length t < List.length s)%nat -> P t) -> P s) ->
  forall s, P s.
Proof.
  intros Hstep s.
  enough (Hn : forall n t, (List.length t < n)%nat -> P t)
    by (apply (Hn (S (List.length s))); apply Nat.lt_succ_diag_r).
  induction n as [|n IH]; intros t Ht; [inversion Ht|].
  apply Hstep. intros u Hu. apply IH.
  apply Nat.lt_le_trans with (1 := Hu). apply Nat.lt_succ_r. exact Ht.
Qed.

Lemma bind_Throw_inv {A B : Type} (c : completion A) (k : A -> completion B)
  (e : JSError) :
  bind c k = Throw e -> c = Throw e \/ exists a, c = Normal a /\ k a = Throw e.
Proof.
  destruct c as [a|e']; simpl; intros E; [right; eauto|].
  left. injection E as ->. reflexivity.
Qed.

Lemma unescape_throws_URIError (s : jsstring) (e : JSError) :
  unescape s = Throw e -> e = URIError.
Proof.
  induction s as [s IH] using length_induction. intros He.
  destruct s as [|c s1]; [discriminate|]. cbn [unescape] in He.
  destruct (c =? 37).
  - destruct s1 as [|h1 [|h2 s3]]; try (injection He as <-; reflexivity).
    destruct (hexValue h1); [|injection He as <-; reflexivity].
    destruct (hexValue h2); [|injection He as <-; reflexivity].
    apply bind_Throw_inv in He as [He | [ts [_ He]]]; [|discriminate].
    apply (IH s3); [cbn [List.length]; lia | exact He].
  - apply bind_Throw_inv in He as [He | [ts [_ He]]]; [|discriminate].
    apply (IH s1); [cbn [List.length]; lia | exact He].
Qed.

Lemma decodeOctets_throws_URIError (ts : list token) (e : JSError) :
  decodeOctets ts = Throw e -> e = URIError.
Proof.
  induction ts as [ts IH] using length_induction. intros He.
  destruct ts as [|t r]; [discriminate|].
  destruct t as [c|b]; cbn [decodeOctets] in He.
  - apply bind_Throw_inv in He as [He | [s [_ He]]]; [|discriminate].
    apply (IH r); [cbn [List.length]; lia | exact He].
  - repeat match type of He with
           | (if ?c then _ else _) = _ => destruct c
           | match ?r with _ => _ end = _ => destruct r
           | Throw _ = Throw _ => injection He as <-; reflexivity
           end;
      try (apply bind_Throw_inv in He as [He | [s [_ He]]]; [|discriminate];
           eapply IH; [|exact He]; cbn [List.length]; lia).
Qed.

Lemma decodeURIComponent_throws_URIError (s : jsstring) (e : JSError) :
  decodeURIComponent s = Throw e -> e = URIError.
Proof.
  unfold decodeURIComponent. intros He.
  apply bind_Throw_inv in He as [He | [ts [_ He]]].
  - eapply unescape_throws_URIError; exact He.
  - eapply decodeOctets_throws_URIError; exact He.
Qed.

Lemma destinationCandidate_throws_URIError (url : URL) (e : JSError) :
  destinationCandidate url = Throw e -> e = URIError.
Proof.
  unfold destinationCandidate.
  destruct (Nat.ltb 1 _ && truthy _); [|discriminate].
  intros He. apply bind_Throw_inv in He as [He | [d [_ He]]]; [|discriminate].
  eapply decodeURIComponent_throws_URIError; exact He.
Qed.

Section HandlerOutcomes.
Context `{JSRuntime}.

(** X1.  The handler either ends with [URIError] or returns a response
    whose status is 200, 302 or 400: [Response.redirect] is only reached
    with a destination that has just parsed, so it does not throw. *)
Theorem handleRedirect_status_or_URIError (request : Request) (url : URL)
  (userAgent : jsstring) :
  handleRedirect request url userAgent = Throw URIError
  \/ exists r, handleRedirect request url userAgent = Normal r
               /\ (status r = 200 \/ status r = 302 \/ status r = 400).
Proof.
  destruct (destinationCandidate url) as [v|e] eqn:Hc.
  - right. destruct (truthy v) eqn:Hv.
    + destruct v as [[|c d]|]; try discriminate.
      destruct (URL_new (c :: d)) as [parsed|] eqn:Hp.
      * rewrite (handleRedirect_valid request url parsed userAgent (c :: d))
          by (assumption || discriminate).
        destruct (isInAppBrowser userAgent); eexists;
          (split; [reflexivity|]); cbn [status]; auto.
      * rewrite (handleRedirect_invalid request url userAgent (c :: d))
          by (assumption || discriminate).
        eexists; split; [reflexivity|]. cbn [status]. auto.
    + rewrite (handleRedirect_missing request url userAgent v Hc Hv).
      eexists; split; [reflexivity|]. cbn [status]. auto.
  - left. unfold handleRedirect. rewrite Hc.
    rewrite (destinationCandidate_throws_URIError url e Hc). reflexivity.
Qed.

End HandlerOutcomes.

(** ** The destination in the path *)

Lemma unescape_without_percent (s : jsstring) :
  without 37 s = true -> unescape s = Normal (map Unit s).
Proof.
  induction s as [|c s IH]; [reflexivity|].
  cbn [without forallb]. intros Hs. apply andb_true_iff in Hs as [Hc Hs].
  apply negb_true_iff in Hc. cbn [unescape map]. rewrite Hc, (IH Hs).
  reflexivity.
Qed.

Lemma decodeOctets_units (s : jsstring) : decodeOctets (map Unit s) = Normal s.
Proof.
  induction s as [|c s IH]; [reflexivity|].
  cbn [map decodeOctets]. rewrite IH. reflexivity.
Qed.

Lemma decodeURIComponent_without_percent (s : jsstring) :
  without 37 s = true -> decodeURIComponent s = Normal s.
Proof.
  intros Hs. unfold decodeURIComponent.
  rewrite (unescape_without_percent _ Hs). apply decodeOctets_units.
Qed.

(** X2.  A path remainder without a percent sign (and without a further
    [/go/]) is the destination as it stands: the unencoded link format is
    accepted. *)
Theorem unencoded_path_destination (url : URL) (rest : jsstring) :
  pathname url = js "/go/" ++ rest ->
  rest <> [] ->
  without 37 rest = true ->
  includes rest (js "/go/") = false ->
  destinationCandidate url = Normal (Some rest).
Proof.
  intros Hp Hne Hpct Hgo.
  rewrite (destinationCandidate_path url rest Hp Hgo Hne).
  rewrite (decodeURIComponent_without_percent _ Hpct). reflexivity.
Qed.

Lemma unencoded_path_destination_witness :
  destinationCandidate readmeRequestURL
  = Normal (Some (js "https://twitter.com/you")).
Proof.
  apply (unencoded_path_destination readmeRequestURL
           (js "https://twitter.com/you")).
  - reflexivity.
  - discriminate.
  - vm_compute. reflexivity.
  - vm_compute. reflexivity.
Defined.

Lemma unescape_trailing_percent (pre : jsstring) :
  unescape (pre ++ [37]) = Throw URIError.
Proof.
  induction pre as [pre IH] using length_induction.
  destruct pre as [|c s1]; [reflexivity|].
  cbn [app unescape]. destruct (c =? 37).
  - destruct s1 as [|h1 [|h2 s3]]; [reflexivity | |].
    + cbn [app]. destruct (hexValue h1); reflexivity.
    + cbn [app]. destruct (hexValue h1); [|reflexivity].
      destruct (hexValue h2); [|reflexivity].
      rewrite (IH s3) by (cbn [List.length]; lia). reflexivity.
  - rewrite (IH s1) by (cbn [List.length]; lia). reflexivity.
Qed.

Section PathFacts.
Context `{JSRuntime}.

(** X3.  Every redirect path that ends in a percent sign (its remainder
    holding no further [/go/]) makes the handler end with [URIError]. *)
Theorem trailing_percent_throws (request : Request) (url : URL)
  (userAgent pre : jsstring) :
  pathname url = js "/go/" ++ pre ++ [37] ->
  includes (pre ++ [37]) (js "/go/") = false ->
  handleRedirect request url userAgent = Throw URIError.
Proof.
  intros Hp Hgo. unfold handleRedirect.
  rewrite (destinationCandidate_path url (pre ++ [37]) Hp Hgo)
    by (destruct pre; discriminate).
  unfold decodeURIComponent. rewrite unescape_trailing_percent. reflexivity.
Qed.

Lemma handleRedirect_same_candidate (r1 r2 : Request) (u1 u2 : URL)
  (userAgent : jsstring) :
  destinationCandidate u1 = destinationCandidate u2 ->
  handleRedirect r1 u1 userAgent = handleRedirect r2 u2 userAgent.
Proof. intros E. unfold handleRedirect. rewrite E. reflexivity. Qed.

(** X5.  The two accepted forms agree: the request whose path carries the
    percent-encoded destination is answered exactly like the request to
    [/go/] whose query parameter [url] is that destination. *)
Theorem path_and_query_forms_agree (r1 r2 : Request) (h1 h2 : jsstring)
  (q1 q2 : list (jsstring * jsstring))
  (userAgent destinationUrl encoded : jsstring) :
  codeUnits16 destinationUrl = true ->
  destinationUrl <> [] ->
  encodeURIComponent destinationUrl = Normal encoded ->
  searchParams_get q2 (js "url") = Some destinationUrl ->
  handleRedirect r1 (mkURL h1 (js "/go/" ++ encoded) q1) userAgent
  = handleRedirect r2 (mkURL h2 (js "/go/") q2) userAgent.
Proof.
  intros H16 Hne Henc Hq. apply handleRedirect_same_candidate.
  destruct (encode_chars _ _ Henc) as [Hchars Hnonempty].
  rewrite (destinationCandidate_path (mkURL h1 (js "/go/" ++ encoded) q1)
             encoded eq_refl (includes_without_char 47 _ _ Hchars)
             (Hnonempty Hne)).
  rewrite (decode_encode _ _ H16 Henc).
  rewrite (destinationCandidate_query (mkURL h2 (js "/go/") q2) eq_refl).
  cbn [searchParams bind]. rewrite Hq. reflexivity.
Qed.

End PathFacts.

Lemma trailing_percent_throws_witness :
  handleRedirect exampleRequest percentRequestURL firefoxUserAgent
  = Throw URIError.
Proof.
  apply (trailing_percent_throws exampleRequest percentRequestURL
           firefoxUserAgent (js "https://example.com/50")).
  - reflexivity.
  - vm_compute. reflexivity.
Defined.

Lemma path_and_query_forms_agree_witness :
  handleRedirect exampleRequest
    (mkURL [] (js "/go/" ++ js "https%3A%2F%2Fexample.com%2Fpath%3Fa%3D1") [])
    instagramAndroidUserAgent
  = handleRedirect examplePostRequest
      (mkURL [] (js "/go/") [(js "url", js "https://example.com/path?a=1")])
      instagramAndroidUserAgent.
Proof.
  apply (path_and_query_forms_agree exampleRequest examplePostRequest [] [] []
           [(js "url", js "https://example.com/path?a=1")]
           instagramAndroidUserAgent (js "https://example.com/path?a=1")
           (js "https%3A%2F%2Fexample.com%2Fpath%3Fa%3D1")).
  - vm_compute. reflexivity.
  - discriminate.
  - vm_compute. reflexivity.
  - vm_compute. reflexivity.
Defined.

(** ** A second [/go/] in the path *)

Lemma startsWith_app_long (m a b : jsstring) :
  (List.length m <= List.length a)%nat ->
  startsWith (a ++ b) m = startsWith a m.
Proof.
  revert a. induction m as [|x m IH]; intros a Hlen; [reflexivity|].
  destruct a as [|y a]; [cbn [List.length] in Hlen; lia|].
  cbn [app startsWith]. rewrite IH; [reflexivity|].
  cbn [List.length] in Hlen. lia.
Qed.

Lemma split_from_first_separator (sep a b cur : jsstring) :
  sep <> [] ->
  includes (a ++ removelast sep) sep = false ->
  split_from sep (a ++ sep ++ b) 0 cur
  = (rev cur ++ a) :: split_from sep b 0 [].
Proof.
  intros Hsep. revert cur. induction a as [|x a IH]; intros cur Hinc.
  - destruct sep as [|c sep]; [congruence|].
    cbn [app split_from].
    assert (Hst : startsWith (c :: sep ++ b) (c :: sep) = true)
      by (apply startsWith_spec; exists b; reflexivity).
    rewrite Hst. cbn [List.length Nat.pred]. rewrite split_from_skip, app_nil_r.
    reflexivity.
  - cbn [app includes] in Hinc. apply orb_false_iff in Hinc as [Hhere Hlater].
    cbn [app split_from].
    assert (Hst : startsWith (x :: a ++ sep ++ b) sep = false).
    { rewrite (app_removelast_last 0 Hsep) at 1.
      rewrite <- app_assoc.
      change (x :: a ++ removelast sep ++ [last sep 0] ++ b)
        with ((x :: a) ++ removelast sep ++ [last sep 0] ++ b).
      rewrite (app_assoc (x :: a)).
      rewrite startsWith_app_long; [exact Hhere|].
      pose proof (f_equal (@List.length codeUnit)
                    (app_removelast_last 0 Hsep)) as Hlen.
      rewrite length_app in Hlen. cbn [List.length] in Hlen.
      rewrite length_app. cbn [List.length].
      unfold jsstring, codeUnit in *. lia. }
    rewrite Hst, (IH _ Hlater). cbn [rev]. rewrite <- app_assoc. reflexivity.
Qed.

Lemma split_prefix_unfold (sep rest : jsstring) :
  sep <> [] -> split (sep ++ rest) sep = [] :: split_from sep rest 0 [].
Proof.
  intros Hsep. destruct sep as [|c sep]; [congruence|].
  unfold split. cbn [app split_from].
  assert (Hst : startsWith (c :: sep ++ rest) (c :: sep) = true)
    by (apply startsWith_spec; exists rest; reflexivity).
  rewrite Hst. cbn [List.length Nat.pred rev]. rewrite split_from_skip.
  reflexivity.
Qed.

(** X4.  When the remainder of the path holds [/go/] again, the
    destination is decoded from the text before that second occurrence
    alone; what follows it is dropped. *)
Theorem second_prefix_truncates (url : URL) (before after : jsstring) :
  pathname url = js "/go/" ++ before ++ js "/go/" ++ after ->
  before <> [] ->
  includes (before ++ js "/go") (js "/go/") = false ->
  destinationCandidate url
  = (d <- decodeURIComponent before ;; Normal (Some d)).
Proof.
  intros Hp Hne Hinc. unfold destinationCandidate.
  rewrite Hp, split_prefix_unfold by discriminate.
  rewrite (split_from_first_separator (js "/go/") before after [])
    by (discriminate || exact Hinc).
  cbn [rev app List.length Nat.ltb Nat.leb nth_error nth andb].
  rewrite (truthy_nonempty _ Hne). reflexivity.
Qed.

Lemma second_prefix_truncates_witness :
  destinationCandidate nestedPrefixURL
  = Normal (Some (js "https://example.com")).
Proof.
  rewrite (second_prefix_truncates nestedPrefixURL (js "https://example.com")
             (js "x")).
  - vm_compute. reflexivity.
  - reflexivity.
  - discriminate.
  - vm_compute. reflexivity.
Defined.

(** ** The scheme replacement of the script *)


(** X8.  [replaceScheme] removes exactly one occurrence of [http://] or
    [https://], the leftmost one wherever it stands, and leaves a string
    without such an occurrence unchanged. *)
Theorem replaceScheme_leftmost (s : jsstring) :
  (includes s (js "http://") = false /\ includes s (js "https://") = false
   /\ replaceScheme s = s)
  \/ exists pre m post,
       s = pre ++ m ++ post
       /\ (m = js "http://" \/ m = js "https://")
       /\ replaceScheme s = pre ++ post
       /\ forall pre1 pre2,
            pre = pre1 ++ pre2 -> pre2 <> [] ->
            startsWith (pre2 ++ m ++ post) (js "http://") = false
            /\ startsWith (pre2 ++ m ++ post) (js "https://") = false.
Proof.
  induction s as [|c r IH].
  - left. repeat split; reflexivity.
  - destruct (startsWith (c :: r) (js "https://")) eqn:Hhttps.
    { right. destruct (proj1 (startsWith_spec _ _) Hhttps) as [post E].
      exists [], (js "https://"), post. rewrite E.
      repeat split; try (right; reflexivity);
        destruct pre1; destruct pre2; try discriminate; congruence. }
    destruct (startsWith (c :: r) (js "http://")) eqn:Hhttp.
    { right. destruct (proj1 (startsWith_spec _ _) Hhttp) as [post E].
      exists [], (js "http://"), post. rewrite E.
      repeat split; try (left; reflexivity);
        destruct pre1; destruct pre2; try discriminate; congruence. }
    destruct IH as [[Ha [Hb Hc]] | [pre [m [post [E [Hm [Hr Hleft]]]]]]].
    + left. cbn [includes replaceScheme]. rewrite Hhttp, Hhttps, Ha, Hb, Hc.
      repeat split; reflexivity.
    + right. exists (c :: pre), m, post.
      split; [rewrite E; reflexivity|]. split; [exact Hm|].
      split; [cbn [replaceScheme]; rewrite Hhttp, Hhttps, Hr; reflexivity|].
      intros pre1 pre2 Epre Hne. destruct pre1 as [|c1 pre1].
      * cbn [app] in Epre. subst pre2. cbn [app]. rewrite <- E.
        split; assumption.
      * injection Epre as _ Epre. exact (Hleft pre1 pre2 Epre Hne).
Qed.





Lemma jsstring_eqb_eq (a b : jsstring) : jsstring_eqb a b = true <-> a = b.
Proof.
  unfold jsstring_eqb. destruct (list_eq_dec N.eq_dec a b); split;
    congruence.
Qed.


(** ** Reading the destination back from the document *)

Lemma afterFirst_link_in_head (rest : jsstring) :
  afterFirst (js "<a href=" ++ dq) (html_head ++ rest) = Some rest.
Proof. vm_compute. reflexivity. Qed.

Lemma untilQuote_without_quote (d rest : jsstring) :
  without 34 d = true -> untilQuote (d ++ dq ++ rest) = d.
Proof.
  induction d as [|c d IH]; [reflexivity|].
  cbn [without forallb]. intros Hd. apply andb_true_iff in Hd as [Hc Hd].
  apply negb_true_iff in Hc. cbn [app untilQuote]. rewrite Hc, (IH Hd).
  reflexivity.
Qed.

(** X6.  For a destination without a quotation mark the text of the
    [href] attribute of the manual link, between its quotation marks, is
    the destination code unit for code unit. *)
Theorem href_text_is_destination (destinationUrl platform : jsstring) :
  without 34 destinationUrl = true ->
  manualLinkHref (generateRedirectHTML destinationUrl platform)
  = Some destinationUrl.
Proof.
  intros Hd. unfold manualLinkHref, generateRedirectHTML.
  rewrite afterFirst_link_in_head. cbn [option_map]. f_equal.
  change html_after_href with (dq ++ skipn 1 html_after_href).
  rewrite <- !app_assoc. apply untilQuote_without_quote. exact Hd.
Qed.

Lemma href_text_is_destination_witness :
  manualLinkHref
    (generateRedirectHTML (js "https://example.com/path?a=1&b=2#top")
       (js "ios"))
  = Some (js "https://example.com/path?a=1&b=2#top").
Proof.
  apply (href_text_is_destination (js "https://example.com/path?a=1&b=2#top")
           (js "ios")).
  vm_compute. reflexivity.
Defined.

Lemma lowerHexDigit_not_lt (n : N) : negb (lowerHexDigit n =? 60) = true.
Proof.
  unfold lowerHexDigit. apply negb_true_iff, N.eqb_neq.
  destruct (n <? 10) eqn:E; [apply N.ltb_lt in E|]; lia.
Qed.

Lemma UnicodeEscape_without_lt (c : N) : without 60 (UnicodeEscape c) = true.
Proof.
  unfold UnicodeEscape, without. cbn [forallb].
  rewrite !lowerHexDigit_not_lt. reflexivity.
Qed.

Lemma without_app (c : codeUnit) (a b : jsstring) :
  without c (a ++ b) = without c a && without c b.
Proof. apply forallb_app. Qed.

Lemma quoteCodeUnit_without_lt (c : codeUnit) :
  c <> 60 -> without 60 (quoteCodeUnit c) = true.
Proof.
  intros Hc. unfold quoteCodeUnit.
  repeat match goal with
         | |- context [if ?b then _ else _] =>
             destruct b; [try reflexivity; apply UnicodeEscape_without_lt|]
         end.
  unfold without. cbn [forallb]. apply N.eqb_neq in Hc. rewrite Hc.
  reflexivity.
Qed.

Lemma quoteChars_without_lt (s : jsstring) :
  without 60 s = true -> without 60 (quoteChars s) = true.
Proof.
  induction s as [|c r IHr IHr2] using jsstring_pair_ind; [reflexivity|].
  cbn [without forallb]. intros Hs. apply andb_true_iff in Hs as [Hc Hr].
  pose proof Hc as Hc'. apply negb_true_iff, N.eqb_neq in Hc'.
  cbn [quoteChars]. destruct (isLead c).
  - destruct r as [|c2 r2]; [apply UnicodeEscape_without_lt|].
    destruct (isTrail c2).
    + cbn [without forallb] in Hr |- *.
      apply andb_true_iff in Hr as [Hc2 Hr2].
      rewrite Hc, Hc2. apply (IHr2 c2 r2 eq_refl Hr2).
    + rewrite without_app, UnicodeEscape_without_lt. apply (IHr Hr).
  - rewrite without_app, (quoteCodeUnit_without_lt _ Hc'). apply (IHr Hr).
Qed.

Lemma JSON_stringify_without_lt (s : jsstring) :
  without 60 s = true -> without 60 (JSON_stringify s) = true.
Proof.
  intros Hs. unfold JSON_stringify. rewrite !without_app.
  rewrite (quoteChars_without_lt _ Hs). reflexivity.
Qed.

Lemma quoteCodeUnit_printable (c : codeUnit) :
  printable (quoteCodeUnit c) = true.
Proof.
  unfold quoteCodeUnit, UnicodeEscape, printable, lowerHexDigit, backslash.
  repeat match goal with
         | |- context [if ?b then _ else _] => destruct b eqn:?
         end; cbn [forallb andb];
    repeat match goal with
           | |- context [?a <=? ?b] => destruct (N.leb_spec a b)
           end; try reflexivity;
    repeat match goal with
           | Hb : (_ || _) = false |- _ => apply orb_false_iff in Hb as [? ?]
           | Hb : (_ <? _) = true |- _ => apply N.ltb_lt in Hb
           | Hb : (_ <? _) = false |- _ => apply N.ltb_ge in Hb
           end; lia.
Qed.

Lemma printable_app (a b : jsstring) :
  printable (a ++ b) = printable a && printable b.
Proof. apply forallb_app. Qed.

Lemma UnicodeEscape_printable (c : N) : printable (UnicodeEscape c) = true.
Proof.
  unfold UnicodeEscape, printable, lowerHexDigit, backslash. cbn [forallb].
  repeat match goal with
         | |- context [if ?b then _ else _] => destruct b
         end;
    repeat match goal with
           | |- context [?a <=? ?b] => destruct (N.leb_spec a b)
           end; try reflexivity; lia.
Qed.

Lemma quoteChars_printable (s : jsstring) : printable (quoteChars s) = true.
Proof.
  induction s as [|c r IHr IHr2] using jsstring_pair_ind; [reflexivity|].
  cbn [quoteChars]. destruct (isLead c) eqn:Hl.
  - destruct r as [|c2 r2]; [apply UnicodeEscape_printable|].
    destruct (isTrail c2) eqn:Ht.
    + destruct (surrogate_plain c (or_introl Hl)) as [Hc _].
      destruct (surrogate_plain c2 (or_intror Ht)) as [Hc2 _].
      apply N.leb_le in Hc, Hc2.
      unfold printable. cbn [forallb]. rewrite Hc, Hc2.
      apply (IHr2 c2 r2 eq_refl).
    + rewrite printable_app, UnicodeEscape_printable. exact IHr.
  - rewrite printable_app, quoteCodeUnit_printable. exact IHr.
Qed.

Lemma JSON_stringify_printable (s : jsstring) :
  printable (JSON_stringify s) = true.
Proof.
  unfold JSON_stringify. rewrite !printable_app, quoteChars_printable.
  reflexivity.
Qed.

Lemma printable_without (k : codeUnit) (s : jsstring) :
  k < 32 -> printable s = true -> without k s = true.
Proof.
  intros Hk. induction s as [|c s IH]; [reflexivity|].
  unfold printable, without in *. cbn [forallb]. intros Hs.
  apply andb_true_iff in Hs as [Hc Hs]. apply N.leb_le in Hc.
  rewrite (IH Hs). destruct (N.eqb_spec c k); [lia | reflexivity].
Qed.

(** *** The input stream of the generated document *)

Lemma normalizeNewlines_clean (a b : jsstring) :
  without 13 a = true ->
  normalizeNewlines (a ++ b) = a ++ normalizeNewlines b.
Proof.
  induction a as [|c a IH]; [reflexivity|].
  cbn [without forallb]. intros Ha. apply andb_true_iff in Ha as [Hc Ha].
  apply negb_true_iff in Hc. cbn [app normalizeNewlines].
  rewrite Hc, (IH Ha). reflexivity.
Qed.

Lemma normalizeNewlines_boundary (a : jsstring) (c : codeUnit) (b : jsstring) :
  c <> 10 ->
  normalizeNewlines (a ++ c :: b)
  = normalizeNewlines a ++ normalizeNewlines (c :: b).
Proof.
  intros Hc. induction a as [|x a IHa IHa2] using jsstring_pair_ind;
    [reflexivity|].
  cbn [app normalizeNewlines]. destruct (x =? 13).
  - destruct a as [|y a2].
    + cbn [app]. apply N.eqb_neq in Hc. rewrite Hc. reflexivity.
    + cbn [app]. destruct (y =? 10).
      * rewrite (IHa2 y a2 eq_refl). reflexivity.
      * change (y :: a2 ++ c :: b) with ((y :: a2) ++ c :: b).
        rewrite IHa. reflexivity.
  - rewrite IHa. reflexivity.
Qed.

Lemma normalizeNewlines_without (k : codeUnit) (a : jsstring) :
  k <> 10 -> without k a = true -> without k (normalizeNewlines a) = true.
Proof.
  intros Hk. apply N.eqb_neq in Hk. rewrite N.eqb_sym in Hk.
  induction a as [|x a IHa IHa2] using jsstring_pair_ind; [reflexivity|].
  cbn [without forallb]. intros Ha. apply andb_true_iff in Ha as [Hx Ha].
  cbn [normalizeNewlines]. destruct (x =? 13).
  - destruct a as [|y a2]; cbn [without forallb]; rewrite Hk; cbn [negb andb];
      [reflexivity|].
    cbn [without forallb] in Ha. pose proof Ha as Ha'.
    apply andb_true_iff in Ha' as [_ Ha2].
    destruct (y =? 10); [apply (IHa2 y a2 eq_refl Ha2) | apply (IHa Ha)].
  - cbn [without forallb]. rewrite Hx. apply (IHa Ha).
Qed.

Lemma generated_input_stream (destinationUrl platform : jsstring) :
  normalizeNewlines (generateRedirectHTML destinationUrl platform)
  = html_head ++ normalizeNewlines destinationUrl ++ html_after_href
    ++ JSON_stringify destinationUrl ++ html_after_destination
    ++ JSON_stringify platform ++ html_tail.
Proof.
  unfold generateRedirectHTML.
  rewrite (normalizeNewlines_clean html_head) by (vm_compute; reflexivity).
  change html_after_href with (34 :: skipn 1 html_after_href) at 1.
  cbn [app]. rewrite normalizeNewlines_boundary by discriminate.
  change (34 :: skipn 1 html_after_href ++ ?x)
    with (html_after_href ++ x).
  rewrite (normalizeNewlines_clean html_after_href)
    by (vm_compute; reflexivity).
  rewrite (normalizeNewlines_clean (JSON_stringify destinationUrl))
    by (apply printable_without; [lia | apply JSON_stringify_printable]).
  rewrite (normalizeNewlines_clean html_after_destination)
    by (vm_compute; reflexivity).
  rewrite (normalizeNewlines_clean (JSON_stringify platform))
    by (apply printable_without; [lia | apply JSON_stringify_printable]).
  rewrite <- (app_nil_r html_tail) at 1.
  rewrite (normalizeNewlines_clean html_tail) by (vm_compute; reflexivity).
  cbn [normalizeNewlines]. rewrite app_nil_r. reflexivity.
Qed.

(** *** The tokenizer on the generated document *)

Lemma firstScript_head (rest : jsstring) :
  firstScript Data (html_head ++ rest)
  = firstScript (InTag (mkTag false (js "a") false) AttributeValueDoubleQuoted)
      rest.
Proof. vm_compute. reflexivity. Qed.

Lemma firstScript_attribute_value (t : tag) (a rest : jsstring) :
  without 34 a = true ->
  firstScript (InTag t AttributeValueDoubleQuoted) (a ++ rest)
  = firstScript (InTag t AttributeValueDoubleQuoted) rest.
Proof.
  induction a as [|c a IH]; [reflexivity|].
  cbn [without forallb]. intros Ha. apply andb_true_iff in Ha as [Hc Ha].
  apply negb_true_iff in Hc.
  cbn [app firstScript tokenizerStep tagChar]. rewrite Hc. apply (IH Ha).
Qed.

Lemma firstScript_after_href (rest : jsstring) :
  firstScript (InTag (mkTag false (js "a") false) AttributeValueDoubleQuoted)
    (html_after_href ++ rest)
  = firstScript (InScript ScriptData) (scriptOpening ++ rest).
Proof. vm_compute. reflexivity. Qed.

Lemma option_map_app (a b : jsstring) (o : option jsstring) :
  option_map (app a) (option_map (app b) o) = option_map (app (a ++ b)) o.
Proof. destruct o; cbn [option_map]; [rewrite app_assoc|]; reflexivity. Qed.

Lemma firstScript_script_text (a rest : jsstring) :
  without 60 a = true -> without 0 a = true ->
  firstScript (InScript ScriptData) (a ++ rest)
  = option_map (app a) (firstScript (InScript ScriptData) rest).
Proof.
  induction a as [|c a IH].
  - intros _ _. cbn [app]. destruct (firstScript _ rest); reflexivity.
  - cbn [without forallb]. intros Hlt Hnul.
    apply andb_true_iff in Hlt as [Hc Hlt].
    apply andb_true_iff in Hnul as [Hz Hnul].
    apply negb_true_iff in Hc, Hz.
    cbn [app firstScript tokenizerStep scriptChar]. unfold scriptDataChar,
      replaceNull.
    rewrite Hc, Hz, (IH Hlt Hnul), option_map_app. reflexivity.
Qed.

Lemma firstScript_document_end :
  firstScript (InScript ScriptData) documentEnd = Some [].
Proof. vm_compute. reflexivity. Qed.

Lemma html_tail_parts : html_tail = scriptClosing ++ documentEnd.
Proof. symmetry. apply firstn_skipn. Qed.

Lemma JSON_stringify_script_text (s : jsstring) :
  without 60 s = true ->
  without 60 (JSON_stringify s) = true /\ without 0 (JSON_stringify s) = true.
Proof.
  intros Hs. split; [apply JSON_stringify_without_lt; exact Hs|].
  apply printable_without; [lia | apply JSON_stringify_printable].
Qed.

(** For a destination without a quotation mark and without a less-than
    sign the browser finds the template's script element, with the two
    literals in it. *)
Lemma scriptText_generateRedirectHTML (destinationUrl platform : jsstring) :
  without 34 destinationUrl = true ->
  without 60 destinationUrl = true ->
  without 60 platform = true ->
  scriptText (generateRedirectHTML destinationUrl platform)
  = Some (scriptOpening ++ JSON_stringify destinationUrl
          ++ html_after_destination ++ JSON_stringify platform
          ++ scriptClosing).
Proof.
  intros Hq Hd Hp. unfold scriptText.
  rewrite generated_input_stream, firstScript_head.
  rewrite firstScript_attribute_value
    by (apply normalizeNewlines_without; [discriminate | exact Hq]).
  rewrite firstScript_after_href, html_tail_parts, !app_assoc.
  rewrite firstScript_script_text, firstScript_document_end.
  - cbn [option_map]. rewrite app_nil_r, <- !app_assoc. reflexivity.
  - destruct (JSON_stringify_script_text _ Hd) as [Hd1 _].
    destruct (JSON_stringify_script_text _ Hp) as [Hp1 _].
    rewrite !without_app, Hd1, Hp1. vm_compute. reflexivity.
  - destruct (JSON_stringify_script_text _ Hd) as [_ Hd0].
    destruct (JSON_stringify_script_text _ Hp) as [_ Hp0].
    rewrite !without_app, Hd0, Hp0. vm_compute. reflexivity.
Qed.

Lemma stripPrefix_app (p s : jsstring) : stripPrefix p (p ++ s) = Some s.
Proof.
  unfold stripPrefix.
  assert (Hst : startsWith (p ++ s) p = true)
    by (apply startsWith_spec; exists s; reflexivity).
  rewrite Hst. f_equal. clear Hst.
  induction p as [|c p IH]; [reflexivity | exact IH].
Qed.

Lemma readConstants_template (destinationUrl platform : jsstring) :
  codeUnits16 destinationUrl = true ->
  codeUnits16 platform = true ->
  readConstants (scriptOpening ++ JSON_stringify destinationUrl
                 ++ html_after_destination ++ JSON_stringify platform
                 ++ scriptClosing)
  = Some (destinationUrl, platform).
Proof.
  intros Hd Hp. unfold readConstants.
  rewrite stripPrefix_app, (evalStringLiteral_JSON_stringify _ _ Hd).
  rewrite stripPrefix_app, (evalStringLiteral_JSON_stringify _ _ Hp).
  rewrite (proj2 (jsstring_eqb_eq scriptClosing scriptClosing) eq_refl).
  reflexivity.
Qed.

(** X7.  For a destination without a quotation mark or a less-than sign,
    and a platform string without a less-than sign, the script element a
    browser finds in the document is the template's and its two constants
    evaluate to that destination and that platform. *)
Theorem script_constants_are_arguments (destinationUrl platform : jsstring) :
  without 34 destinationUrl = true ->
  without 60 destinationUrl = true ->
  without 60 platform = true ->
  codeUnits16 destinationUrl = true ->
  codeUnits16 platform = true ->
  scriptText (generateRedirectHTML destinationUrl platform)
  = Some (scriptOpening ++ JSON_stringify destinationUrl
          ++ html_after_destination ++ JSON_stringify platform
          ++ scriptClosing)
  /\ scriptConstants (generateRedirectHTML destinationUrl platform)
     = Some (destinationUrl, platform).
Proof.
  intros Hq Hd Hp Hd16 Hp16.
  pose proof (scriptText_generateRedirectHTML _ _ Hq Hd Hp) as Htext.
  split; [exact Htext|].
  unfold scriptConstants. rewrite Htext.
  apply readConstants_template; assumption.
Qed.

Lemma script_constants_are_arguments_witness :
  scriptConstants (generateRedirectHTML ampersandDestination (js "android"))
  = Some (ampersandDestination, js "android").
Proof.
  apply (script_constants_are_arguments ampersandDestination (js "android"));
    vm_compute; reflexivity.
Defined.

(** ** Classification and case *)

Section ClassificationCase.
Context `{JSRuntime}.

Lemma isInAppBrowser_empty : isInAppBrowser [] = false.
Proof.
  unfold isInAppBrowser. rewrite (toLowerCase_ascii [] eq_refl). reflexivity.
Qed.

(** X12.  Two ASCII identification strings that differ only in the case
    of their letters receive the same in-app classification and the same
    platform. *)
Theorem classification_ignores_case (a b : jsstring) :
  forallb isASCII a = true ->
  forallb isASCII b = true ->
  map asciiLower a = map asciiLower b ->
  isInAppBrowser a = isInAppBrowser b /\ getPlatform a = getPlatform b.
Proof.
  intros Ha Hb E. unfold isInAppBrowser, getPlatform.
  rewrite (toLowerCase_ascii a Ha), (toLowerCase_ascii b Hb), E.
  split; reflexivity.
Qed.

Lemma Contains_embedded (pre s post m : jsstring) :
  Contains s m -> Contains (pre ++ s ++ post) m.
Proof.
  intros [x [y ->]]. exists (pre ++ x), (y ++ post).
  rewrite <- !app_assoc. reflexivity.
Qed.

(** X13.  A marker counts wherever it stands: an ASCII string classified
    as in-app stays in-app, and one classified as [ios] stays [ios], when
    any ASCII text is put before and after it. *)
Theorem classification_survives_context (pre userAgent post : jsstring) :
  forallb isASCII (pre ++ userAgent ++ post) = true ->
  (isInAppBrowser userAgent = true ->
   isInAppBrowser (pre ++ userAgent ++ post) = true)
  /\ (getPlatform userAgent = js "ios" ->
      getPlatform (pre ++ userAgent ++ post) = js "ios").
Proof.
  intros Hall.
  assert (Hua : forallb isASCII userAgent = true).
  { rewrite !forallb_app in Hall.
    apply andb_true_iff in Hall as [_ Hall].
    apply andb_true_iff in Hall as [Hall _]. exact Hall. }
  unfold isInAppBrowser, getPlatform.
  rewrite (toLowerCase_ascii _ Hall), (toLowerCase_ascii _ Hua), !map_app.
  split.
  - rewrite !existsb_exists. intros [m [Hin Hm]]. exists m.
    split; [exact Hin|]. apply includes_spec, Contains_embedded.
    apply includes_spec. exact Hm.
  - intros Hios.
    destruct (includes (map asciiLower userAgent) (js "iphone")) eqn:E1.
    + apply includes_spec in E1.
      apply (Contains_embedded (map asciiLower pre) _ (map asciiLower post))
        in E1.
      apply includes_spec in E1. rewrite E1. reflexivity.
    + destruct (includes (map asciiLower userAgent) (js "ipad")) eqn:E2.
      * apply includes_spec in E2.
        apply (Contains_embedded (map asciiLower pre) _ (map asciiLower post))
          in E2.
        apply includes_spec in E2. rewrite E2, orb_true_r. reflexivity.
      * cbn [orb] in Hios.
        destruct (includes (map asciiLower userAgent) (js "android"));
          discriminate Hios.
Qed.

(** X14.  A redirect request without a [user-agent] header, or with an
    empty one, is never shown the interstitial: with a valid destination
    it gets the plain 302. *)
Theorem fetch_without_user_agent (request : Request) (env : Env)
  (ctx : ExecutionContext) (url destination : URL) (destinationUrl : jsstring) :
  orEmpty (Headers_get (req_headers request) (js "user-agent")) = [] ->
  URL_new (req_url request) = Some url ->
  startsWith (pathname url) (js "/go/") = true ->
  destinationCandidate url = Normal (Some destinationUrl) ->
  destinationUrl <> [] ->
  URL_new destinationUrl = Some destination ->
  fetch request env ctx
  = Normal (mkResponse 302 [(js "Location", href destination)] None).
Proof.
  intros Hua Hurl Hgo Hc Hne Hd. unfold fetch. rewrite Hurl, Hgo, Hua.
  rewrite (handleRedirect_valid request url destination [] destinationUrl
             Hc Hne Hd).
  rewrite isInAppBrowser_empty. reflexivity.
Qed.

(** X15.  A request whose path does not begin with [/go/] is handed to
    the asset binding as it is, and the answer of the binding, response or
    exception, is the answer of the worker whatever the user agent. *)
Theorem fetch_passes_other_paths_through (request : Request) (env : Env)
  (ctx : ExecutionContext) (url : URL) :
  URL_new (req_url request) = Some url ->
  startsWith (pathname url) (js "/go/") = false ->
  fetch request env ctx = ASSETS_fetch env request.
Proof. intros Hurl Hgo. unfold fetch. rewrite Hurl, Hgo. reflexivity. Qed.

End ClassificationCase.

Lemma classification_ignores_case_witness :
  isInAppBrowser (js "INSTAGRAM 300 (IPHONE)")
  = isInAppBrowser (js "Instagram 300 (iPhone)")
  /\ getPlatform (js "INSTAGRAM 300 (IPHONE)")
     = getPlatform (js "Instagram 300 (iPhone)").
Proof.
  apply (classification_ignores_case (js "INSTAGRAM 300 (IPHONE)")
           (js "Instagram 300 (iPhone)")); vm_compute; reflexivity.
Defined.

Lemma classification_survives_context_witness :
  isInAppBrowser (js "Mozilla/5.0 (" ++ js "iPhone; FBAN/FBIOS" ++ js ") Mobile")
  = true.
Proof.
  apply (classification_survives_context (js "Mozilla/5.0 (")
           (js "iPhone; FBAN/FBIOS") (js ") Mobile")); vm_compute; reflexivity.
Defined.

Lemma fetch_without_user_agent_witness :
  fetch bareRequest failingAssets executionContext
  = Normal (mkResponse 302
              [(js "Location", js "https://example.com/path?a=1")] None).
Proof.
  apply (fetch_without_user_agent bareRequest failingAssets executionContext
           exampleRequestURL exampleDestination
           (js "https://example.com/path?a=1")).
  - vm_compute. reflexivity.
  - vm_compute. reflexivity.
  - vm_compute. reflexivity.
  - vm_compute. reflexivity.
  - discriminate.
  - vm_compute. reflexivity.
Defined.

Lemma fetch_passes_other_paths_through_witness :
  fetch assetRequest pageAssets executionContext
  = Normal (mkResponse 200 [(js "Content-Type", js "text/html")]
              (Some (js "https://example.com/path?a=1"))).
Proof.
  rewrite (fetch_passes_other_paths_through assetRequest pageAssets
             executionContext exampleDestination).
  - reflexivity.
  - vm_compute. reflexivity.
  - vm_compute. reflexivity.
Defined.

(** ** Decoded destinations are well-formed strings *)

Lemma hexValue_bound (h a : N) : hexValue h = Some a -> a < 16.
Proof.
  unfold hexValue.
  repeat match goal with
         | |- context [if ?b then _ else _] => destruct b eqn:?
         end; intros E; try discriminate; injection E as <-;
    repeat match goal with
           | Hb : (_ && _) = true |- _ => apply andb_true_iff in Hb as [? ?]
           | Hb : (_ <=? _) = true |- _ => apply N.leb_le in Hb
           end; lia.
Qed.

Lemma forallb_cons_true {A : Type} (f : A -> bool) (x : A) (l : list A) :
  f x = true -> forallb f l = true -> forallb f (x :: l) = true.
Proof. intros Hx Hl. cbn [forallb]. rewrite Hx, Hl. reflexivity. Qed.

Lemma unescape_ascii_tokens (s : jsstring) :
  forall ts, forallb isASCII s = true -> unescape s = Normal ts ->
             forallb asciiToken ts = true.
Proof.
  induction s as [s IH] using length_induction. intros ts Hs Hts.
  destruct s as [|c s1]; [injection Hts as <-; reflexivity|].
  cbn [forallb] in Hs. apply andb_true_iff in Hs as [Hc Hs1].
  cbn [unescape] in Hts. destruct (c =? 37).
  - destruct s1 as [|h1 [|h2 s3]]; try discriminate.
    destruct (hexValue h1) as [a|] eqn:Ha; [|discriminate].
    destruct (hexValue h2) as [b|] eqn:Hb; [|discriminate].
    apply bind_Normal_inv in Hts as [ts3 [Hts3 E]]. injection E as <-.
    cbn [forallb] in Hs1. apply andb_true_iff in Hs1 as [_ Hs1].
    apply andb_true_iff in Hs1 as [_ Hs3].
    apply hexValue_bound in Ha, Hb.
    apply forallb_cons_true.
    + unfold asciiToken. apply N.ltb_lt. change (16 * a + b < 256). lia.
    + apply (IH s3); [cbn [List.length]; lia | assumption..].
  - apply bind_Normal_inv in Hts as [ts1 [Hts1 E]]. injection E as <-.
    apply forallb_cons_true; [exact Hc|].
    apply (IH s1); [cbn [List.length]; lia | assumption..].
Qed.

Lemma wellFormed16_encode (cp : N) (s : jsstring) :
  isScalar cp = true -> wellFormed16 s ->
  wellFormed16 (UTF16EncodeCodePoint cp ++ s).
Proof.
  unfold isScalar, isSurrogate, wellFormed16, UTF16EncodeCodePoint.
  intros Hcp [H16 Hwf]. apply andb_true_iff in Hcp as [Hmax Hsur].
  apply N.leb_le in Hmax. apply negb_true_iff in Hsur.
  assert (Hns : cp < 55296 \/ 57343 < cp).
  { destruct (N.leb_spec 55296 cp), (N.leb_spec cp 57343);
      try discriminate; lia. }
  clear Hsur. destruct (N.ltb_spec cp 65536) as [Hb|Hb].
  - cbn [app codeUnits16 forallb isWellFormed]. unfold isLead, isTrail.
    fold (codeUnits16 s). rewrite H16, Hwf.
    split; compare_cases.
  - cbn [app codeUnits16 forallb isWellFormed]. unfold isLead, isTrail.
    fold (codeUnits16 s). rewrite H16, Hwf.
    split; compare_cases.
Qed.

Lemma isScalar_from_bounds (cp : N) :
  cp <= 1114111 -> isSurrogate cp = false -> isScalar cp = true.
Proof.
  intros Hmax Hsur. unfold isScalar. rewrite Hsur.
  destruct (N.leb_spec cp 1114111); [reflexivity | lia].
Qed.

Lemma isSurrogate_outside (cp : N) :
  cp < 55296 \/ 57343 < cp -> isSurrogate cp = false.
Proof. unfold isSurrogate. intros Hcp. compare_cases. Qed.

Lemma wellFormed16_cons_ascii (c : codeUnit) (s : jsstring) :
  c < 128 -> wellFormed16 s -> wellFormed16 (c :: s).
Proof.
  intros Hc Hs.
  assert (Hscalar : isScalar c = true)
    by (apply isScalar_from_bounds; [lia | apply isSurrogate_outside; lia]).
  pose proof (wellFormed16_encode c s Hscalar Hs) as Hw.
  rewrite UTF16EncodeCodePoint_bmp in Hw by lia. exact Hw.
Qed.

Ltac bounds_of_tests :=
  unfold isCont in *;
  repeat match goal with
         | Hb : (_ && _) = true |- _ => apply andb_true_iff in Hb as [? ?]
         | Hb : (_ <=? _) = true |- _ => apply N.leb_le in Hb
         | Hb : (_ <? _) = true |- _ => apply N.ltb_lt in Hb
         | Hb : (_ <? _) = false |- _ => apply N.ltb_ge in Hb
         | Hb : negb _ = true |- _ => apply negb_true_iff in Hb
         end.

Lemma decodeOctets_well_formed (ts : list token) :
  forall d, forallb asciiToken ts = true -> decodeOctets ts = Normal d ->
            wellFormed16 d.
Proof.
  induction ts as [ts IH] using length_induction. intros d Hts Hd.
  destruct ts as [|t r]; [injection Hd as <-; split; reflexivity|].
  destruct t as [c|b]; cbn [decodeOctets] in Hd.
  - apply bind_Normal_inv in Hd as [s [Hs E]]. injection E as <-.
    cbn [forallb asciiToken] in Hts. bounds_of_tests.
    apply wellFormed16_cons_ascii; [assumption|].
    apply (IH r); [cbn [List.length]; lia | assumption..].
  - repeat match type of Hd with
           | (if ?c then _ else _) = _ => destruct c eqn:?
           | match ?r with _ => _ end = _ => destruct r
           | Throw _ = Normal _ => discriminate Hd
           end;
      apply bind_Normal_inv in Hd as [s [Hs E]]; injection E as <-;
      cbn [forallb asciiToken] in Hts; bounds_of_tests.
    + apply wellFormed16_cons_ascii; [assumption|].
      eapply IH; [|eassumption..]. cbn [List.length]. lia.
    + apply wellFormed16_encode.
      * apply isScalar_from_bounds; [lia | apply isSurrogate_outside; lia].
      * eapply IH; [|eassumption..]. cbn [List.length]. lia.
    + apply wellFormed16_encode.
      * apply isScalar_from_bounds; [lia | assumption].
      * eapply IH; [|eassumption..]. cbn [List.length]. lia.
    + apply wellFormed16_encode.
      * apply isScalar_from_bounds; [lia | apply isSurrogate_outside; lia].
      * eapply IH; [|eassumption..]. cbn [List.length]. lia.
Qed.

(** X16.  A destination decoded from an ASCII path (and every path the
    URL parser delivers is ASCII) is a well-formed string of 16-bit code
    units: no surrogate stands alone in it. *)
Theorem decoded_destination_well_formed (s d : jsstring) :
  forallb isASCII s = true ->
  decodeURIComponent s = Normal d ->
  codeUnits16 d = true /\ isWellFormed d = true.
Proof.
  intros Hs Hd. unfold decodeURIComponent in Hd.
  apply bind_Normal_inv in Hd as [ts [Hts Hd]].
  apply (decodeOctets_well_formed ts d); [|exact Hd].
  apply (unescape_ascii_tokens s ts Hs Hts).
Qed.

Lemma decoded_destination_well_formed_witness :
  codeUnits16 [99; 97; 102; 233; 32; 55357; 56832] = true
  /\ isWellFormed [99; 97; 102; 233; 32; 55357; 56832] = true.
Proof.
  apply (decoded_destination_well_formed (js "caf%C3%A9%20%F0%9F%98%80")).
  - vm_compute. reflexivity.
  - vm_compute. reflexivity.
Defined.

(** ** The script of the interstitial response *)

Section InterstitialScript.
Context `{JSRuntime}.

Lemma getPlatform_range (userAgent : jsstring) :
  getPlatform userAgent = js "ios" \/ getPlatform userAgent = js "android"
  \/ getPlatform userAgent = js "unknown".
Proof.
  unfold getPlatform.
  destruct (includes _ (js "iphone") || includes _ (js "ipad")); [auto|].
  destruct (includes _ (js "android")); auto.
Qed.

(** X17.  For an in-app client and a valid destination without a
    quotation mark or a less-than sign, the body of the response is a
    document in which a browser finds the template's script, and the
    constants of that script evaluate to the extracted destination and to
    the platform classified from the user agent. *)
Theorem interstitial_script_carries_destination (request : Request)
  (url destination : URL) (userAgent destinationUrl : jsstring) :
  destinationCandidate url = Normal (Some destinationUrl) ->
  destinationUrl <> [] ->
  URL_new destinationUrl = Some destination ->
  isInAppBrowser userAgent = true ->
  without 34 destinationUrl = true ->
  without 60 destinationUrl = true ->
  codeUnits16 destinationUrl = true ->
  exists r doc,
    handleRedirect request url userAgent = Normal r
    /\ body r = Some doc
    /\ scriptConstants doc = Some (destinationUrl, getPlatform userAgent).
Proof.
  intros Hc Hne Hp Hua Hq Hlt H16.
  rewrite (handleRedirect_valid request url destination userAgent
             destinationUrl Hc Hne Hp), Hua.
  eexists. eexists. split; [reflexivity|]. split; [reflexivity|].
  assert (Hplatform : without 60 (getPlatform userAgent) = true
                      /\ codeUnits16 (getPlatform userAgent) = true)
    by (destruct (getPlatform_range userAgent) as [-> | [-> | ->]];
        split; reflexivity).
  destruct Hplatform as [Hplt Hp16].
  unfold scriptConstants.
  rewrite (scriptText_generateRedirectHTML _ _ Hq Hlt Hplt).
  apply readConstants_template; assumption.
Qed.

End InterstitialScript.

Lemma interstitial_script_carries_destination_witness :
  exists r doc,
    handleRedirect exampleRequest exampleRequestURL instagramAndroidUserAgent
    = Normal r
    /\ body r = Some doc
    /\ scriptConstants doc
       = Some (js "https://example.com/path?a=1",
               getPlatform instagramAndroidUserAgent).
Proof.
  apply (interstitial_script_carries_destination exampleRequest
           exampleRequestURL exampleDestination instagramAndroidUserAgent
           (js "https://example.com/path?a=1")).
  - vm_compute. reflexivity.
  - discriminate.
  - vm_compute. reflexivity.
  - vm_compute. reflexivity.
  - vm_compute. reflexivity.
  - vm_compute. reflexivity.
  - vm_compute. reflexivity.
Defined.

(** ** The script a browser runs *)

(** A destination without a less-than sign can still remove the script:
    here its quotation mark ends the attribute and its apostrophe opens
    another attribute value, which swallows the start tag of the script, so
    that the document has no script element. *)
Example apostrophe_swallows_script :
  scriptText
    (generateRedirectHTML (js "https://e.com/x" ++ dq ++ js "a='")
       (js "android"))
  = None.
Proof. vm_compute. reflexivity. Qed.


